(** * GRS System Modernization dashboard (app.py)

    A shallow embedding of the two pieces of logic of the dashboard: the ROI
    estimator [calculate_costs_and_roi] of the "ROI Calculator" tab, and the
    fixed datasets with their CSV export.

    Python [int] is [Z].  Python [float] is IEEE 754 binary64, taken from the
    standard library's executable specification [SpecFloat] at precision 53
    and exponent bound 1024, so every result below is the bit pattern the
    interpreter produces.  Exceptions are an error type threaded through a
    small monad. *)

From Stdlib Require Import ZArith QArith Qabs Qpower List String Ascii Bool Lia Lqa.
From Stdlib Require Import DecimalString.
From Stdlib Require Import Floats.SpecFloat.
Import ListNotations.
Local Open Scope Z_scope.

(** ** Python exceptions *)

Inductive exn : Type :=
| KeyError (key : string)
| OverflowError
| ZeroDivisionError
| ValueError
| NameError (name : string).

Inductive result (A : Type) : Type :=
| Ok (a : A)
| Raise (e : exn).
Arguments Ok {A} a.
Arguments Raise {A} e.

Definition bind {A B : Type} (c : result A) (k : A -> result B) : result B :=
  match c with
  | Ok a => k a
  | Raise e => Raise e
  end.

Notation "x <- c ;; k" := (bind c (fun x => k))
  (at level 61, c at next level, right associativity).

Definition fmap {A B : Type} (f : A -> B) (c : result A) : result B :=
  x <- c ;; Ok (f x).

(** ** binary64 *)

Module B64.

Definition prec : Z := 53.
Definition emax : Z := 1024.

Definition float : Type := spec_float.

Definition mul : float -> float -> float := SFmul prec emax.
Definition add : float -> float -> float := SFadd prec emax.
Definition sub : float -> float -> float := SFsub prec emax.
Definition div : float -> float -> float := SFdiv prec emax.

(** Comparisons of the language on floats ([<], [<=], [==]): false on NaN. *)
Definition ltb : float -> float -> bool := SFltb.
Definition leb : float -> float -> bool := SFleb.
Definition eqb : float -> float -> bool := SFeqb.

(** The nearest binary64 to the integer [m * 2^e], ties to even. *)
Definition round (m e : Z) : float := binary_normalize prec emax m e false.

Definition is_finite (x : float) : bool :=
  match x with
  | S754_zero _ | S754_finite _ _ _ => true
  | _ => false
  end.

Definition is_nan (x : float) : bool :=
  match x with
  | S754_nan => true
  | _ => false
  end.

(** The rational a finite float stands for (0 on infinities and NaN). *)
Definition to_Q (x : float) : Q :=
  match x with
  | S754_finite s m e =>
      (if s then inject_Z (Zneg m) else inject_Z (Zpos m)) * Qpower 2 e
  | _ => 0
  end%Q.

(** The nearest binary64 to the rational [a / b] for [b > 0], ties to even:
    the quotient is taken with at least 55 significant bits and the lowest
    bit is made sticky, so the single rounding of [round] sees on which side
    of every midpoint the exact quotient lies. *)
Definition round_ratio (a b : Z) : float :=
  let s := Z.max 0 (Zdigits2 b + 55 - Zdigits2 a) in
  let '(q, r) := Z.div_eucl (Z.abs a * 2 ^ s) b in
  let m := 2 * q + (if r =? 0 then 0 else 1) in
  round (if a <? 0 then - m else m) (- s - 1).

End B64.

Definition float : Type := B64.float.

(** ** The Python operations the estimator uses *)

(** [float(n)] for an [int], as the mixed operators convert their [int]
    operand: correctly rounded, [OverflowError] when out of range. *)
Definition int_to_float (n : Z) : result float :=
  match B64.round n 0 with
  | S754_infinity _ => Raise OverflowError
  | x => Ok x
  end.

(** [a / b] on two [int]s: true division, correctly rounded. *)
Definition int_truediv (a b : Z) : result float :=
  if b =? 0 then Raise ZeroDivisionError
  else
    match (if b <? 0 then B64.round_ratio (- a) (- b) else B64.round_ratio a b) with
    | S754_infinity _ => Raise OverflowError
    | x => Ok x
    end.

(** [n * x] and [n + x] with [n] an [int] and [x] a [float]. *)
Definition int_mul_float (n : Z) (x : float) : result float :=
  y <- int_to_float n ;; Ok (B64.mul y x).

Definition int_add_float (n : Z) (x : float) : result float :=
  y <- int_to_float n ;; Ok (B64.add y x).

(** A decimal literal [num/den] of the source text, e.g. [0.8] is
    [float_literal 8 10]. *)
Definition float_literal (num den : Z) : float := B64.round_ratio num den.

(** A dict with string keys, in insertion order; [d[k]]. *)
Definition dict (V : Type) : Type := list (string * V).

Fixpoint getitem {V : Type} (d : dict V) (k : string) : result V :=
  match d with
  | [] => Raise (KeyError k)
  | (k', v) :: d' => if String.eqb k' k then Ok v else getitem d' k
  end.

(** ** The estimator (app.py, lines 387-397) *)

Definition complexity_factor : dict float :=
  [ ("Low"%string, float_literal 8 10);
    ("Medium"%string, float_literal 10 10);
    ("High"%string, float_literal 13 10) ].

Record Estimate : Type := mkEstimate {
  ms_stack_cost : float;
  power_apps_cost : float;
  ms_roi : float;
  pa_roi : float
}.

Definition calculate_costs_and_roi
    (users months : Z) (complexity : string) (roi_percentage : Z)
  : result Estimate :=
  factor <- getitem complexity_factor complexity ;;
  ms_stack_cost <- int_mul_float (users * 100 * months + 50000) factor ;;
  power_apps_cost <- int_mul_float (users * 40 * months + 30000) factor ;;
  p <- int_truediv roi_percentage 100 ;;
  g <- int_add_float 1 p ;;
  let ms_roi := B64.sub (B64.mul ms_stack_cost g) ms_stack_cost in
  p' <- int_truediv roi_percentage 100 ;;
  g' <- int_add_float 1 p' ;;
  let pa_roi := B64.sub (B64.mul power_apps_cost g') power_apps_cost in
  Ok (mkEstimate ms_stack_cost power_apps_cost ms_roi pa_roi).

(** The estimator as the specification words it: an enumerated tier, a
    factor per tier, and the two cost formulas. *)

Inductive ComplexityTier : Type := Low | Medium | High.

Definition tier_name (t : ComplexityTier) : string :=
  match t with
  | Low => "Low"
  | Medium => "Medium"
  | High => "High"
  end%string.

Definition complexityFactor (t : ComplexityTier) : float :=
  match t with
  | Low => float_literal 8 10
  | Medium => float_literal 10 10
  | High => float_literal 13 10
  end.

Definition spec_costA (t : ComplexityTier) (userCount durationMonths : Z)
  : result float :=
  int_mul_float (userCount * 100 * durationMonths + 50000) (complexityFactor t).

Definition spec_costB (t : ComplexityTier) (userCount durationMonths : Z)
  : result float :=
  int_mul_float (userCount * 40 * durationMonths + 30000) (complexityFactor t).

(** The simplified path of the specification, [cost * (p / 100)], next to the
    path of the source, [cost * (1 + p / 100) - cost]. *)
Definition spec_roi (cost : float) (targetRoiPercent : Z) : result float :=
  p <- int_truediv targetRoiPercent 100 ;; Ok (B64.mul cost p).

Definition code_roi (cost : float) (roi_percentage : Z) : result float :=
  p <- int_truediv roi_percentage 100 ;;
  g <- int_add_float 1 p ;;
  Ok (B64.sub (B64.mul cost g) cost).

(** The widgets of the "ROI Calculator" tab: three integer sliders and a
    select box. *)
Definition in_slider (lo hi v : Z) : Prop := lo <= v <= hi.

Record ui_input (users months roi : Z) (complexity : string) : Prop := {
  ui_users : in_slider 10 1000 users;
  ui_months : in_slider 6 36 months;
  ui_roi : in_slider 0 200 roi;
  ui_complexity : In complexity ["Low"; "Medium"; "High"]%string
}.

(** ** The fixed datasets (app.py, lines 81-130 and 305-334) *)

(** A cell of a column: the tables hold [int]s and [str]s only. *)
Inductive cell : Type :=
| CInt (n : Z)
| CStr (s : string).

Definition ints (l : list Z) : list cell := map CInt l.
Definition strs (l : list string) : list cell := map CStr l.

(** [pd.DataFrame(d)] on a dict of equal-length lists: the columns in the
    dict's order under a default [0..n-1] index; [ValueError] when the lists
    differ in length. *)
Record DataFrame : Type := mkDataFrame {
  columns : dict (list cell);
  nrows : nat
}.

Definition DataFrame_of_dict (d : dict (list cell)) : result DataFrame :=
  match d with
  | [] => Ok (mkDataFrame [] 0)
  | (_, c) :: _ =>
      if forallb (fun kc => Nat.eqb (List.length (snd kc)) (List.length c)) d
      then Ok (mkDataFrame d (List.length c))
      else Raise ValueError
  end.

Local Open Scope string_scope.

Definition comparison_data : dict (list cell) :=
  [ ("Factor", strs [
       "Development Speed";
       "Scalability";
       "Initial Cost";
       "Ongoing Cost";
       "Customizability";
       "Maintenance Effort";
       "Time-to-Market";
       "Security Features";
       "Integration Capability";
       "Learning Curve" ]);
    ("Microsoft Stack", ints [7; 6; 8; 7; 9; 6; 7; 8; 9; 8]);
    ("Azure Power Apps", ints [9; 9; 6; 7; 7; 8; 9; 9; 8; 6]) ].

Definition df_comparison : result DataFrame := DataFrame_of_dict comparison_data.

Definition timeline_data : dict (list cell) :=
  [ ("Phase", strs [
       "Environment Setup";
       "Base Implementation";
       "Core Features";
       "Integration";
       "Testing";
       "Deployment" ]);
    ("Microsoft Stack", ints [30; 45; 60; 45; 30; 15]);
    ("Azure Power Apps", ints [15; 30; 45; 30; 30; 15]);
    ("Risk Level", strs ["Low"; "Medium"; "High"; "High"; "Medium"; "Low"]) ].


Definition cost_breakdown : dict (list cell) :=
  [ ("Category", strs [
       "Licensing";
       "Infrastructure";
       "Development";
       "Training";
       "Maintenance" ]);
    ("Microsoft Stack", ints [50000; 30000; 80000; 20000; 25000]);
    ("Azure Power Apps", ints [70000; 15000; 60000; 30000; 15000]) ].





(** *** Reading a frame *)

(** [df[name]]: the column, [KeyError] when there is none. *)
Definition column (df : DataFrame) (name : string) : result (list cell) :=
  getitem (columns df) name.

(** Row [i] across the columns, in column order. *)
Definition row (df : DataFrame) (i : nat) : list cell :=
  map (fun kc => nth i (snd kc) (CStr "")) (columns df).

Definition rows (df : DataFrame) : list (list cell) :=
  map (row df) (seq 0 (nrows df)).

(** [df[name].sum()] on an integer column (a string cell counts 0 here; the
    program sums the two cost columns only). *)
Definition cell_int (c : cell) : Z :=
  match c with
  | CInt n => n
  | CStr _ => 0%Z
  end.

Definition column_sum (df : DataFrame) (name : string) : result Z :=
  c <- column df name ;; Ok (fold_right Z.add 0%Z (map cell_int c)).

(** *** [df.to_csv(index=False)] *)

Definition comma : ascii := ","%char.
Definition dquote : ascii := ascii_of_nat 34.
Definition newline : ascii := ascii_of_nat 10.
Definition creturn : ascii := ascii_of_nat 13.

Fixpoint mem_char (c : ascii) (s : string) : bool :=
  match s with
  | EmptyString => false
  | String c' s' => Ascii.eqb c c' || mem_char c s'
  end.

Fixpoint double_quotes (s : string) : string :=
  match s with
  | EmptyString => EmptyString
  | String c s' =>
      if Ascii.eqb c dquote then String dquote (String dquote (double_quotes s'))
      else String c (double_quotes s')
  end.

(** Minimal quoting: a field is quoted only when it holds the delimiter, the
    quote character or a line break. *)
Definition csv_quote (s : string) : string :=
  if mem_char comma s || mem_char dquote s || mem_char newline s || mem_char creturn s
  then String dquote (double_quotes s ++ String dquote EmptyString)
  else s.

Definition csv_field (c : cell) : string :=
  match c with
  | CInt n => NilZero.string_of_int (Z.to_int n)
  | CStr s => csv_quote s
  end.

Fixpoint join (sep : ascii) (l : list string) : string :=
  match l with
  | [] => EmptyString
  | [x] => x
  | x :: l' => x ++ String sep (join sep l')
  end.

Definition csv_line (fields : list string) : string :=
  join comma fields ++ String newline EmptyString.

(** The header line holds the column names and nothing else: with
    [index=False] no index column is written.  Lines end in a line feed. *)
Definition to_csv (df : DataFrame) : string :=
  csv_line (map (fun kc => csv_quote (fst kc)) (columns df))
  ++ String.concat EmptyString (map (fun r => csv_line (map csv_field r)) (rows df)).

(** Reading the text back: lines at line breaks, fields at commas (enough
    for text without quoted fields). *)
Fixpoint split_at (sep : ascii) (s : string) : list string :=
  match s with
  | EmptyString => [EmptyString]
  | String c s' =>
      if Ascii.eqb c sep then EmptyString :: split_at sep s'
      else
        match split_at sep s' with
        | [] => [String c EmptyString]
        | w :: ws => String c w :: ws
        end
  end.

Definition csv_lines (text : string) : list string :=
  match rev (split_at newline text) with
  | EmptyString :: ls => rev ls
  | ls => rev ls
  end.

Definition csv_records (text : string) : list (list string) :=
  map (split_at comma) (csv_lines text).

Local Close Scope string_scope.

(** ** Rounding to binary64, as arithmetic on integers

    The floats of the estimator are positive and far from the subnormal
    range, so one rounding is described by a pair (mantissa, exponent) with
    a 53-bit mantissa, the exponent left unbounded; the overflow test is
    applied afterwards by [ovf]. *)

Definition pow2 (e : Z) : Q := Qpower 2 e.

(** The rational [m * 2^e]. *)
Definition F2Q (m e : Z) : Q := (inject_Z m * pow2 e)%Q.

Definition P2Q (p : Z * Z) : Q := F2Q (fst p) (snd p).

(** Half an ulp, relative: 2^-53. *)
Definition eps : Q := 1 # (2 ^ 53).

(** [m / 2^n] rounded to the nearest integer, ties to even. *)
Definition rne (m n : Z) : Z :=
  let q := m / 2 ^ n in
  match 2 * (m mod 2 ^ n) ?= 2 ^ n with
  | Lt => q
  | Eq => if Z.even q then q else q + 1
  | Gt => q + 1
  end.

(** The state of [shr] after [k] one-bit shifts of [m]: the quotient, the
    last bit shifted out (round bit) and whether any earlier one was set
    (sticky bit). *)
Definition rbit (m k : Z) : bool := if k =? 0 then false else Z.odd (m / 2 ^ (k - 1)).
Definition sbit (m k : Z) : bool := if k =? 0 then false else negb (m mod 2 ^ (k - 1) =? 0).
Definition sh (m k : Z) : shr_record := Build_shr_record (m / 2 ^ k) (rbit m k) (sbit m k).

(** The mantissa of [m] brought to 53 bits (54 when the rounding carries). *)
Definition rmant (m : Z) : Z :=
  let d := Zdigits2 m in
  if d <=? 53 then m * 2 ^ (53 - d) else rne m (d - 53).

(** [m * 2^e] rounded: the 53-bit mantissa and its exponent. *)
Definition rpair (m e : Z) : Z * Z :=
  let E := Zdigits2 m + e - 53 in
  if rmant m =? 2 ^ 53 then (2 ^ 52, E + 1) else (rmant m, E).

(** The positive float of a pair, and the same with the overflow test. *)
Definition fin (p : Z * Z) : float := S754_finite false (Z.to_pos (fst p)) (snd p).

Definition ovf (s : bool) (p : Z * Z) : float :=
  if snd p <=? 971 then S754_finite s (Z.to_pos (fst p)) (snd p) else S754_infinity s.

Definition normal (p : Z * Z) : Prop := 2 ^ 52 <= fst p < 2 ^ 53.

(** The order of normal pairs: by exponent, then by mantissa. *)
Definition ple (p q : Z * Z) : Prop := snd p < snd q \/ (snd p = snd q /\ fst p <= fst q).
Definition plt (p q : Z * Z) : Prop := snd p < snd q \/ (snd p = snd q /\ fst p < fst q).

(** [y] is [x] up to the relative error [d]. *)
Definition approx (d x y : Q) : Prop := ((1 - d) * x <= y /\ y <= (1 + d) * x)%Q.

(** The operations on pairs: the mantissa of [p] at the lower exponent [ez],
    and the product, sum, difference and quotient before the overflow test. *)
Definition aligned (p : Z * Z) (ez : Z) : Z := fst p * 2 ^ (snd p - ez).

Definition mul_pair (p q : Z * Z) : Z * Z := rpair (fst p * fst q) (snd p + snd q).

Definition add_pair (p q : Z * Z) : Z * Z :=
  let ez := Z.min (snd p) (snd q) in rpair (aligned p ez + aligned q ez) ez.

Definition sub_pair (p q : Z * Z) : Z * Z :=
  let ez := Z.min (snd p) (snd q) in rpair (aligned p ez - aligned q ez) ez.

Definition ratio_shift (a b : Z) : Z := Z.max 0 (Zdigits2 b + 55 - Zdigits2 a).

Definition ratio_mant (a b : Z) : Z :=
  let x := a * 2 ^ ratio_shift a b in
  2 * (x / b) + (if x mod b =? 0 then 0 else 1).

Definition ratio_pair (a b : Z) : Z * Z :=
  rpair (ratio_mant a b) (- ratio_shift a b - 1).

Definition one_pair : Z * Z := (2 ^ 52, -52).

(** The estimator on pairs: the converted integer, the factor of a tier,
    a cost, and the return on a cost [c] at [roi] percent. *)
Definition int_pair (n : Z) : Z * Z := rpair n 0.

Definition factor_pair (t : ComplexityTier) : Z * Z :=
  match t with
  | Low => (7205759403792794, -53)
  | Medium => (4503599627370496, -52)
  | High => (5854679515581645, -52)
  end.

Definition cost_pair (n : Z) (f : Z * Z) : Z * Z := mul_pair (int_pair n) f.

Definition growth_pair (roi : Z) : Z * Z := add_pair one_pair (ratio_pair roi 100).

Definition roi_pair (c : Z * Z) (roi : Z) : Z * Z :=
  sub_pair (mul_pair c (growth_pair roi)) c.

(** The float the source returns for the return on the cost [c]. *)
Definition roi_float (c : Z * Z) (roi : Z) : float :=
  if roi =? 0 then S754_zero false else fin (roi_pair c roi).

(** The float of the simplified product [cost * (roi / 100)]. *)
Definition spec_roi_float (c : Z * Z) (roi : Z) : float :=
  if roi =? 0 then S754_zero false else fin (mul_pair c (ratio_pair roi 100)).

(** [value] is [reference] within the relative tolerance [tol]. *)
Definition rel_close (tol reference value : Q) : Prop :=
  (Qabs (value - reference) <= tol * Qabs reference)%Q.

(** The factor of a tier in tenths: the decimal the literal was written as. *)
Definition tier_tenths (t : ComplexityTier) : Z :=
  match t with
  | Low => 8
  | Medium => 10
  | High => 13
  end.

(** The two costs as the integers the formulas denote in exact arithmetic. *)
Definition exact_costA (t : ComplexityTier) (userCount durationMonths : Z) : Z :=
  tier_tenths t * (userCount * 10 * durationMonths + 5000).

Definition exact_costB (t : ComplexityTier) (userCount durationMonths : Z) : Z :=
  tier_tenths t * (userCount * 4 * durationMonths + 3000).

(** ** One run of the script over its tables

    The script builds the four frames once per run and afterwards only
    reads them: columns for the charts, single cells for the timeline bars,
    column sums for the cost totals, a difference of two columns for the
    score summary, and the CSV text for the download buttons.  The run is
    modelled as a sequence of such actions over the tables, each returning
    the tables it leaves behind and what it shows. *)











Definition is_risk_level (c : cell) : bool :=
  match c with
  | CStr s => String.eqb s "Low" || String.eqb s "Medium" || String.eqb s "High"
  | CInt _ => false
  end.




(** ** The order of the script

    A run executes the file from the top in a fresh namespace.  What
    matters for a name is only where it is assigned and where it is read,
    and a block under [if st.button(label):] runs in the run in which that
    button was pressed. *)


Local Open Scope string_scope.


Local Close Scope string_scope.




(** ** What the tabs show

    The format specification [,.Nf] of the f-strings: the exact value of
    the float rounded to [N] decimals, ties to even, the integer part
    grouped in threes by commas. *)

(** [|x| * scale] rounded to the nearest integer, ties to even. *)
Definition scaled_round (x : float) (scale : Z) : Z :=
  match x with
  | S754_finite _ m e =>
      if 0 <=? e then Zpos m * 2 ^ e * scale else rne (Zpos m * scale) (- e)
  | _ => 0
  end.

Definition decimal (n : Z) : string := NilZero.string_of_uint (N.to_uint (Z.to_N n)).

(** Commas in a string of digits given last digit first. *)
Fixpoint commas_rev (l : list ascii) : list ascii :=
  match l with
  | a :: b :: c :: ((_ :: _) as rest) => a :: b :: c :: comma :: commas_rev rest
  | _ => l
  end.

Definition commas (s : string) : string :=
  string_of_list_ascii (rev (commas_rev (rev (list_ascii_of_string s)))).

Definition zero_pad (width : nat) (s : string) : string :=
  match width - String.length s with
  | O => s
  | S k => String.append (string_of_list_ascii (repeat "0"%char (S k))) s
  end%nat.

(** The text of [v / 10^decimals] for an integer [v >= 0], with sign. *)
Definition fixed_text (negative : bool) (decimals : nat) (v : Z) : string :=
  let scale := 10 ^ Z.of_nat decimals in
  ((if negative then "-" else "")
   ++ commas (decimal (v / scale))
   ++ match decimals with
      | O => ""
      | S _ => "." ++ zero_pad decimals (decimal (v mod scale))
      end)%string.

Definition sign_bit (x : float) : bool :=
  match x with
  | S754_zero s | S754_infinity s | S754_finite s _ _ => s
  | S754_nan => false
  end.

(** [format(x, ',.Nf')] on a float. *)
Definition format_f (decimals : nat) (x : float) : string :=
  match x with
  | S754_nan => "nan"%string
  | S754_infinity s => if s then "-inf"%string else "inf"%string
  | _ => fixed_text (sign_bit x) decimals (scaled_round x (10 ^ Z.of_nat decimals))
  end.

(** [f"${x:,.2f}"] on a float, and [f"${n:,.0f}"], [f"${n:,.2f}"] on an
    integer, which is converted first. *)
Definition money (x : float) : string := ("$" ++ format_f 2 x)%string.

Definition money_int (decimals : nat) (n : Z) : result string :=
  x <- int_to_float n ;; Ok ("$" ++ format_f decimals x)%string.

(** The four metrics of the ROI tab (app.py, lines 399-412). *)
Definition roi_tab_metrics
    (num_users project_months : Z) (complexity : string) (expected_roi : Z)
  : result (list (string * string)) :=
  e <- calculate_costs_and_roi num_users project_months complexity expected_roi ;;
  Ok [ ("Microsoft Stack Total Cost"%string, money (ms_stack_cost e));
       ("Azure Power Apps Total Cost"%string, money (power_apps_cost e));
       ("Microsoft Stack Expected ROI"%string, money (ms_roi e));
       ("Azure Power Apps Expected ROI"%string, money (pa_roi e)) ].


(** ** The timeline chart (app.py, lines 211-227) *)

Definition colors : dict string :=
  [ ("Low", "green"); ("Medium", "orange"); ("High", "red") ]%string.

(** A cell as a replacement field of an f-string renders it. *)
Definition cell_text (c : cell) : string :=
  match c with
  | CInt n => NilZero.string_of_int (Z.to_int n)
  | CStr s => s
  end.

(** [d[c]] with a cell as the key: an [int] is not among the string keys. *)
Definition getitem_cell {V : Type} (d : dict V) (c : cell) : result V :=
  match c with
  | CStr s => getitem d s
  | CInt _ => Raise (KeyError (cell_text c))
  end.

(** [df.loc[i, name]] under the default index 0 .. nrows - 1. *)
Definition loc (df : DataFrame) (i : nat) (name : string) : result cell :=
  c <- column df name ;;
  match nth_error c i with
  | Some v => Ok v
  | None => Raise (KeyError (decimal (Z.of_nat i)))
  end.

(** One [go.Bar] trace, with the arguments that depend on the data. *)
Record Bar : Type := mkBar {
  bar_name : string;
  bar_y : list string;
  bar_x : list cell;
  bar_color : string;
  bar_customdata : list (list cell)
}.

(** [for i, a in enumerate(l): ...], the body appending one result; an
    exception in the body ends the loop. *)
Fixpoint for_each {A B : Type} (body : nat -> A -> result B) (i : nat) (l : list A)
  : result (list B) :=
  match l with
  | [] => Ok []
  | a :: l' =>
      b <- body i a ;;
      bs <- for_each body (S i) l' ;;
      Ok (b :: bs)
  end.

Definition timeline_bar (df : DataFrame) (platform : string) (i : nat) (phase : cell)
  : result Bar :=
  x <- loc df i platform ;;
  risk <- loc df i "Risk Level" ;;
  color <- getitem_cell colors risk ;;
  risk' <- loc df i "Risk Level" ;;
  Ok (mkBar (platform ++ " - " ++ cell_text phase) [platform] [x] color [[phase; risk']]).

Definition platform_bars (df : DataFrame) (platform : string) : result (list Bar) :=
  phases <- column df "Phase" ;;
  for_each (timeline_bar df platform) 0 phases.

(** The traces added to the figure, in order. *)
Definition timeline_traces (df : DataFrame) : result (list Bar) :=
  a <- platform_bars df "Microsoft Stack" ;;
  b <- platform_bars df "Azure Power Apps" ;;
  Ok (a ++ b).

(** ** The cost tab (app.py, lines 254-300) *)

(** [f'${x:,.Nf}'] on a cell: a [str] has no format code [f]. *)
Definition money_cell (decimals : nat) (c : cell) : result string :=
  match c with
  | CInt n => money_int decimals n
  | CStr _ => Raise ValueError
  end.

(** [df[name].apply(lambda x: f'${x:,.0f}')], the text on the bars. *)
Definition cost_bar_labels (df : DataFrame) (name : string) : result (list string) :=
  c <- column df name ;;
  for_each (fun _ => money_cell 0) 0 c.

(** The two metrics under the chart: label, value, delta. *)
Definition cost_tab_metrics (df : DataFrame) : result (list (string * string * string)) :=
  ms_total <- column_sum df "Microsoft Stack" ;;
  v1 <- money_int 2 ms_total ;;
  pa <- column_sum df "Azure Power Apps" ;;
  d1 <- money_int 2 (ms_total - pa) ;;
  pa_total <- column_sum df "Azure Power Apps" ;;
  v2 <- money_int 2 pa_total ;;
  pa' <- column_sum df "Azure Power Apps" ;;
  d2 <- money_int 2 (pa' - ms_total) ;;
  Ok [ ("Total Microsoft Stack Cost"%string, v1, d1);
       ("Total Azure Power Apps Cost"%string, v2, d2) ].

(** An amount of whole dollars as the metrics write it: the sign after the
    dollar sign, the digits grouped in threes. *)
Definition dollars (decimals : nat) (n : Z) : string :=
  String.append "$"
    (String.append (if n <? 0 then "-"%string else EmptyString)
       (String.append (commas (decimal (Z.abs n)))
          match decimals with
          | O => EmptyString
          | S _ => String.append "." (zero_pad decimals "0")
          end)).

Definition is_int (c : cell) : bool :=
  match c with
  | CInt _ => true
  | CStr _ => false
  end.

(** An integer a float holds exactly. *)
Definition exact_int (c : cell) : bool :=
  match c with
  | CInt n => Z.abs n <? 2 ^ 53
  | CStr _ => false
  end.

(** ** Frames whose text needs no quoting *)

(** A field is written as it is when it is not empty and holds no comma, no
    quote character and no line break. *)
Definition plain (s : string) : bool :=
  negb (String.eqb s EmptyString)
  && negb (mem_char comma s || mem_char dquote s || mem_char newline s || mem_char creturn s).

Definition plain_cell (c : cell) : bool :=
  match c with
  | CInt _ => true
  | CStr s => plain s
  end.

Definition plain_frame (df : DataFrame) : bool :=
  forallb (fun kc => plain (fst kc) && forallb plain_cell (snd kc)) (columns df).

(** [df[name].sum()] of a column already read. *)
Definition total (c : list cell) : Z := fold_right Z.add 0 (map cell_int c).

(** The bars of one platform from the three columns read side by side. *)
Fixpoint bars_of (platform : string) (phases xs risks : list cell) : result (list Bar) :=
  match phases, xs, risks with
  | p :: ps, x :: xs', r :: rs =>
      color <- getitem_cell colors r ;;
      bs <- bars_of platform ps xs' rs ;;
      Ok (mkBar (platform ++ " - " ++ cell_text p) [platform] [x] color [[p; r]] :: bs)
  | _, _, _ => Ok []
  end.

(** Lines joined into a text, each ended by a line feed. *)
Definition unlines (ls : list string) : string :=
  fold_right (fun l acc => (l ++ String newline acc)%string) EmptyString ls.

(** ** The feature table (app.py, line 358) *)


(** * Properties of the rounding *)

(** [eps] as a numeral, for [lra]. *)
Ltac eps_literal := change eps with (1 # 9007199254740992)%Q in *.

(** ** Powers of two and dyadic rationals *)

Lemma pow2_pos e : (0 < pow2 e)%Q.
Proof. apply Qpower_0_lt. reflexivity. Qed.

Lemma pow2_add a b : (pow2 (a + b) == pow2 a * pow2 b)%Q.
Proof. apply Qpower_plus. discriminate. Qed.

Lemma pow2_Z k : 0 <= k -> (pow2 k == inject_Z (2 ^ k))%Q.
Proof. intros H. unfold pow2. rewrite Zpower_Qpower by assumption. reflexivity. Qed.

Lemma pow2_le a b : a <= b -> (pow2 a <= pow2 b)%Q.
Proof. intros H. apply Qpower_le_compat_l; [assumption | discriminate]. Qed.

Lemma pow2_lt a b : a < b -> (pow2 a < pow2 b)%Q.
Proof. intros H. apply Qpower_lt_compat_l; [assumption | reflexivity]. Qed.

Lemma pow2_lt_inv a b : (pow2 a < pow2 b)%Q -> a < b.
Proof. intros H. apply (Qpower_lt_compat_l_inv 2); [assumption | reflexivity]. Qed.

Lemma pow2_succ a : (pow2 (a + 1) == 2 * pow2 a)%Q.
Proof. rewrite pow2_add. unfold pow2 at 2. simpl. lra. Qed.

Lemma F2Q_shift m e k : 0 <= k -> (F2Q (m * 2 ^ k) (e - k) == F2Q m e)%Q.
Proof.
  intros Hk. unfold F2Q.
  rewrite inject_Z_mult, <- (pow2_Z k) by assumption.
  replace e with ((e - k) + k) at 2 by lia.
  rewrite (pow2_add (e - k) k). ring.
Qed.

Lemma F2Q_le m m' e : (F2Q m e <= F2Q m' e)%Q <-> m <= m'.
Proof.
  unfold F2Q. pose proof (pow2_pos e) as Hp. split; intros H.
  - apply Qmult_le_r in H; [| assumption]. rewrite <- Zle_Qle in H. assumption.
  - apply Qmult_le_r; [assumption |]. rewrite <- Zle_Qle. assumption.
Qed.

Lemma F2Q_lt m m' e : (F2Q m e < F2Q m' e)%Q <-> m < m'.
Proof.
  unfold F2Q. pose proof (pow2_pos e) as Hp. split; intros H.
  - apply Qmult_lt_r in H; [| assumption]. rewrite <- Zlt_Qlt in H. assumption.
  - apply Qmult_lt_r; [assumption |]. rewrite <- Zlt_Qlt. assumption.
Qed.

(** ** The number of binary digits *)

Lemma digits2_pos_bounds p :
  2 ^ (Zpos (digits2_pos p) - 1) <= Zpos p < 2 ^ Zpos (digits2_pos p).
Proof.
  induction p as [p IH | p IH |]; cbn [digits2_pos].
  - rewrite Pos2Z.inj_succ.
    replace (Z.succ (Zpos (digits2_pos p)) - 1) with (Z.succ (Zpos (digits2_pos p) - 1)) by lia.
    rewrite !Z.pow_succ_r by lia. lia.
  - rewrite Pos2Z.inj_succ.
    replace (Z.succ (Zpos (digits2_pos p)) - 1) with (Z.succ (Zpos (digits2_pos p) - 1)) by lia.
    rewrite !Z.pow_succ_r by lia. lia.
  - cbn. lia.
Qed.

Lemma Zdigits2_bounds m : 0 < m -> 2 ^ (Zdigits2 m - 1) <= m < 2 ^ Zdigits2 m.
Proof. destruct m as [|p|p]; try lia. intros _. apply digits2_pos_bounds. Qed.

Lemma Zdigits2_pos m : 0 < m -> 0 < Zdigits2 m.
Proof. destruct m; cbn; lia. Qed.

Lemma Zdigits2_unique m d : 0 < m -> 2 ^ (d - 1) <= m < 2 ^ d -> Zdigits2 m = d.
Proof.
  intros Hm [Hl Hu]. pose proof (Zdigits2_bounds m Hm) as [Hl' Hu'].
  pose proof (Zdigits2_pos m Hm).
  assert (0 < d).
  { destruct (Z.lt_ge_cases 0 d) as [|Hd]; [assumption | exfalso].
    destruct (Z.eq_dec d 0) as [-> | Hne]; [cbn in Hu; lia |].
    rewrite Z.pow_neg_r in Hu by lia. lia. }
  destruct (Z.lt_trichotomy (Zdigits2 m) d) as [Hlt | [Heq | Hgt]]; [| assumption |].
  - assert (2 ^ Zdigits2 m <= 2 ^ (d - 1)) by (apply Z.pow_le_mono_r; lia). lia.
  - assert (2 ^ d <= 2 ^ (Zdigits2 m - 1)) by (apply Z.pow_le_mono_r; lia). lia.
Qed.

(** ** Shifting right with round and sticky bits

    [shr] applied to an exact mantissa computes the quotient by the power
    of two together with the position of the remainder against the half,
    and [round_nearest_even] on that state is [rne]. *)

Lemma iter_pos_nat {A : Type} (f : A -> A) (p : positive) (x : A) :
  iter_pos f p x = Nat.iter (Pos.to_nat p) f x.
Proof.
  revert x. induction p as [p IH | p IH |]; intros x; cbn [iter_pos].
  - rewrite !IH, Pos2Nat.inj_xI, <- Nat.iter_succ_r, <- Nat.iter_add.
    f_equal. lia.
  - rewrite !IH, Pos2Nat.inj_xO, <- Nat.iter_add. f_equal. lia.
  - reflexivity.
Qed.

Lemma shr_1_nonneg m r s :
  0 <= m -> shr_1 (Build_shr_record m r s) = Build_shr_record (Z.div2 m) (Z.odd m) (r || s).
Proof. destruct m as [|[p|p|]|p]; intros H; try lia; reflexivity. Qed.

Lemma mod_pow2_split m k :
  0 < k -> m mod 2 ^ k = m mod 2 ^ (k - 1) + 2 ^ (k - 1) * ((m / 2 ^ (k - 1)) mod 2).
Proof.
  intros Hk. replace (2 ^ k) with (2 ^ (k - 1) * 2).
  - apply Z.rem_mul_r; [apply Z.pow_nonzero; lia | lia].
  - rewrite Z.mul_comm, <- Z.pow_succ_r by lia. f_equal. lia.
Qed.

Lemma odd_mod2 x : Z.odd x = (x mod 2 =? 1).
Proof. rewrite Zodd_mod. reflexivity. Qed.

Lemma sh_step m k : 0 <= m -> 0 <= k -> shr_1 (sh m k) = sh m (k + 1).
Proof.
  intros Hm Hk. unfold sh.
  assert (Hp : 0 < 2 ^ k) by (apply Z.pow_pos_nonneg; lia).
  rewrite shr_1_nonneg by (apply Z.div_pos; lia).
  f_equal.
  - rewrite Z.div2_div, Z.div_div by lia.
    rewrite Z.pow_add_r by lia. reflexivity.
  - unfold rbit. replace (k + 1 =? 0) with false by (symmetry; apply Z.eqb_neq; lia).
    replace (k + 1 - 1) with k by lia. reflexivity.
  - unfold rbit, sbit.
    replace (k + 1 =? 0) with false by (symmetry; apply Z.eqb_neq; lia).
    replace (k + 1 - 1) with k by lia.
    destruct (Z.eqb_spec k 0) as [-> | Hk0].
    + cbn. rewrite Z.mod_1_r. reflexivity.
    + rewrite (mod_pow2_split m k) by lia. rewrite odd_mod2.
      assert (Ha : 0 < 2 ^ (k - 1)) by (apply Z.pow_pos_nonneg; lia).
      pose proof (Z.mod_pos_bound m (2 ^ (k - 1)) Ha) as Hlo.
      pose proof (Z.mod_pos_bound (m / 2 ^ (k - 1)) 2 ltac:(lia)) as Hb.
      destruct (Z.eqb_spec ((m / 2 ^ (k - 1)) mod 2) 1) as [Hb1 | Hb1];
        destruct (Z.eqb_spec (m mod 2 ^ (k - 1)) 0) as [Hl0 | Hl0]; cbn;
        symmetry; first [ apply negb_true_iff, Z.eqb_neq; nia
                        | apply negb_false_iff, Z.eqb_eq; nia ].
Qed.

Lemma iter_shr_1 m k :
  0 <= m -> Nat.iter k shr_1 (Build_shr_record m false false) = sh m (Z.of_nat k).
Proof.
  intros Hm. induction k as [|k IH].
  - cbn. unfold sh, rbit, sbit. cbn. rewrite Z.div_1_r. reflexivity.
  - rewrite Nat.iter_succ, IH, sh_step by lia. f_equal. lia.
Qed.

Lemma shr_exact m e n :
  0 <= m -> 0 < n ->
  shr (Build_shr_record m false false) e n = (sh m n, e + n).
Proof.
  intros Hm Hn. destruct n as [|p|p]; try lia.
  cbn [shr]. rewrite iter_pos_nat, iter_shr_1 by assumption.
  rewrite positive_nat_Z. reflexivity.
Qed.

Lemma round_sh m n :
  0 <= m -> 0 < n ->
  round_nearest_even (shr_m (sh m n)) (loc_of_shr_record (sh m n)) = rne m n.
Proof.
  intros Hm Hn. unfold sh, rne, rbit, sbit. cbn [shr_m].
  replace (n =? 0) with false by (symmetry; apply Z.eqb_neq; lia).
  rewrite (mod_pow2_split m n) by lia. rewrite odd_mod2.
  assert (Ha : 0 < 2 ^ (n - 1)) by (apply Z.pow_pos_nonneg; lia).
  assert (H2 : 2 ^ n = 2 * 2 ^ (n - 1)).
  { rewrite <- Z.pow_succ_r by lia. f_equal. lia. }
  pose proof (Z.mod_pos_bound m (2 ^ (n - 1)) Ha) as Hlo.
  pose proof (Z.mod_pos_bound (m / 2 ^ (n - 1)) 2 ltac:(lia)) as Hb.
  rewrite H2.
  destruct (Z.eqb_spec ((m / 2 ^ (n - 1)) mod 2) 1) as [Hb1 | Hb1];
    destruct (Z.eqb_spec (m mod 2 ^ (n - 1)) 0) as [Hl0 | Hl0];
    cbn [negb loc_of_shr_record round_nearest_even].
  - rewrite Hb1, Hl0.
    replace (2 * (0 + 2 ^ (n - 1) * 1) ?= 2 * 2 ^ (n - 1)) with Eq; [reflexivity|].
    symmetry. apply Z.compare_eq_iff. lia.
  - rewrite Hb1.
    replace (2 * (m mod 2 ^ (n - 1) + 2 ^ (n - 1) * 1) ?= 2 * 2 ^ (n - 1)) with Gt; [reflexivity|].
    symmetry. apply Z.compare_gt_iff. lia.
  - assert (Hb0 : (m / 2 ^ (n - 1)) mod 2 = 0) by lia. rewrite Hb0, Hl0.
    replace (2 * (0 + 2 ^ (n - 1) * 0) ?= 2 * 2 ^ (n - 1)) with Lt; [reflexivity|].
    symmetry. apply Z.compare_lt_iff. lia.
  - assert (Hb0 : (m / 2 ^ (n - 1)) mod 2 = 0) by lia. rewrite Hb0.
    replace (2 * (m mod 2 ^ (n - 1) + 2 ^ (n - 1) * 0) ?= 2 * 2 ^ (n - 1)) with Lt; [reflexivity|].
    symmetry. apply Z.compare_lt_iff. lia.
Qed.

(** ** Rounding an integer quotient to nearest, ties to even *)

Lemma rne_cases m n :
  0 <= n ->
  let q := m / 2 ^ n in let r := m mod 2 ^ n in
  m = q * 2 ^ n + r /\ 0 <= r < 2 ^ n /\
  ((2 * r < 2 ^ n /\ rne m n = q) \/
   (2 * r = 2 ^ n /\ rne m n = q /\ Z.even q = true) \/
   (2 * r = 2 ^ n /\ rne m n = q + 1 /\ Z.even q = false) \/
   (2 * r > 2 ^ n /\ rne m n = q + 1)).
Proof.
  intros Hn q r.
  assert (Hp : 0 < 2 ^ n) by (apply Z.pow_pos_nonneg; lia).
  split; [| split].
  - subst q r. rewrite Z.mul_comm. apply Z.div_mod. lia.
  - apply Z.mod_pos_bound. assumption.
  - unfold rne. fold q r.
    destruct (Z.compare_spec (2 * r) (2 ^ n)) as [He | Hl | Hg].
    + destruct (Z.even q) eqn:Hev; [right; left | right; right; left]; auto.
    + left. auto.
    + right; right; right. split; [lia | reflexivity].
Qed.

Lemma rne_exact k n : 0 <= n -> rne (k * 2 ^ n) n = k.
Proof.
  intros Hn. assert (Hp : 0 < 2 ^ n) by (apply Z.pow_pos_nonneg; lia).
  unfold rne. rewrite Z.div_mul, Z.mod_mul by lia.
  destruct (Z.compare_spec (2 * 0) (2 ^ n)); [lia | reflexivity | lia].
Qed.

Lemma rne_0_r m : rne m 0 = m.
Proof. unfold rne. rewrite Z.pow_0_r, Z.div_1_r, Z.mod_1_r. reflexivity. Qed.

Lemma rne_mono m m' n : 0 <= n -> m <= m' -> rne m n <= rne m' n.
Proof.
  intros Hn Hle.
  destruct (rne_cases m n Hn) as (Hm & Hr & Hc).
  destruct (rne_cases m' n Hn) as (Hm' & Hr' & Hc').
  assert (Hp : 0 < 2 ^ n) by (apply Z.pow_pos_nonneg; lia).
  assert (Hq : m / 2 ^ n <= m' / 2 ^ n) by (apply Z.div_le_mono; lia).
  set (q := m / 2 ^ n) in *. set (q' := m' / 2 ^ n) in *.
  set (r := m mod 2 ^ n) in *. set (r' := m' mod 2 ^ n) in *.
  destruct (Z.eq_dec q q') as [Heq | Hne].
  - assert (r <= r') by nia.
    destruct Hc as [[? ->] | [(? & -> & Hev) | [(? & -> & Hev) | [? ->]]]];
      destruct Hc' as [[? ->] | [(? & -> & Hev') | [(? & -> & Hev') | [? ->]]]];
      try lia; rewrite Heq in *; congruence.
  - assert (q + 1 <= q') by lia.
    destruct Hc as [[? ->] | [(? & -> & Hev) | [(? & -> & Hev) | [? ->]]]];
      destruct Hc' as [[? ->] | [(? & -> & Hev') | [(? & -> & Hev') | [? ->]]]];
      lia.
Qed.

Lemma rne_err m n : 0 <= n -> 2 * Z.abs (rne m n * 2 ^ n - m) <= 2 ^ n.
Proof.
  intros Hn. destruct (rne_cases m n Hn) as (Hm & Hr & Hc).
  set (q := m / 2 ^ n) in *. set (r := m mod 2 ^ n) in *.
  destruct Hc as [[? ->] | [(? & -> & Hev) | [(? & -> & Hev) | [? ->]]]]; nia.
Qed.

Lemma rne_ge m n k : 0 <= n -> k * 2 ^ n <= m -> k <= rne m n.
Proof. intros Hn H. rewrite <- (rne_exact k n Hn). apply rne_mono; assumption. Qed.

Lemma rne_le m n k : 0 <= n -> m <= k * 2 ^ n -> rne m n <= k.
Proof. intros Hn H. rewrite <- (rne_exact k n Hn). apply rne_mono; assumption. Qed.

Lemma rne_scale m n k : 0 <= n -> 0 <= k -> rne (m * 2 ^ k) (n + k) = rne m n.
Proof.
  intros Hn Hk. unfold rne.
  assert (Hpk : 0 < 2 ^ k) by (apply Z.pow_pos_nonneg; lia).
  assert (Hpn : 0 < 2 ^ n) by (apply Z.pow_pos_nonneg; lia).
  rewrite Z.pow_add_r by lia.
  rewrite Z.div_mul_cancel_r by lia.
  rewrite Z.mul_mod_distr_r by lia.
  replace (2 * (m mod 2 ^ n * 2 ^ k) ?= 2 ^ n * 2 ^ k) with (2 * (m mod 2 ^ n) ?= 2 ^ n);
    [reflexivity|].
  replace (2 * (m mod 2 ^ n * 2 ^ k)) with (2 * (m mod 2 ^ n) * 2 ^ k) by ring.
  apply Zmult_compare_compat_r. lia.
Qed.

(** ** One rounding of the library is [rpair] followed by the overflow test *)

Lemma pow2_split a b : 0 <= a -> 0 <= b -> 2 ^ (a + b) = 2 ^ a * 2 ^ b.
Proof. intros. apply Z.pow_add_r; assumption. Qed.

Lemma rmant_bounds m : 0 < m -> 2 ^ 52 <= rmant m <= 2 ^ 53.
Proof.
  intros Hm. unfold rmant.
  pose proof (Zdigits2_bounds m Hm) as [Hl Hu].
  pose proof (Zdigits2_pos m Hm) as Hd.
  set (d := Zdigits2 m) in *.
  destruct (Z.leb_spec d 53) as [Hle | Hgt].
  - assert (H52 : 2 ^ 52 = 2 ^ (d - 1) * 2 ^ (53 - d)).
    { rewrite <- Z.pow_add_r by lia. f_equal. lia. }
    assert (H53 : 2 ^ 53 = 2 ^ d * 2 ^ (53 - d)).
    { rewrite <- Z.pow_add_r by lia. f_equal. lia. }
    assert (0 < 2 ^ (53 - d)) by (apply Z.pow_pos_nonneg; lia).
    rewrite H52, H53. nia.
  - split.
    + apply rne_ge; [lia |]. rewrite <- Z.pow_add_r by lia.
      replace (52 + (d - 53)) with (d - 1) by lia. assumption.
    + apply rne_le; [lia |]. rewrite <- Z.pow_add_r by lia.
      replace (53 + (d - 53)) with d by lia. lia.
Qed.

Lemma rpair_normal m e : 0 < m -> 2 ^ 52 <= fst (rpair m e) < 2 ^ 53.
Proof.
  intros Hm. pose proof (rmant_bounds m Hm) as Hb. unfold rpair.
  destruct (Z.eqb_spec (rmant m) (2 ^ 53)); cbn [fst]; lia.
Qed.

Lemma bra_eq s m e :
  0 < m -> 53 <= Zdigits2 m -> -1074 <= Zdigits2 m + e - 53 ->
  binary_round_aux 53 1024 s m e loc_Exact = ovf s (rpair m e).
Proof.
  intros Hm Hd He.
  pose proof (rmant_bounds m Hm) as Hb.
  unfold binary_round_aux, shr_fexp, fexp, emin.
  cbn [shr_record_of_loc].
  replace (Z.max (Zdigits2 m + e - 53) (3 - 1024 - 53)) with (Zdigits2 m + e - 53) by lia.
  replace (Zdigits2 m + e - 53 - e) with (Zdigits2 m - 53) by lia.
  assert (Hfst : exists n1, shr {| shr_m := m; shr_r := false; shr_s := false |} e (Zdigits2 m - 53)
            = (n1, Zdigits2 m + e - 53) /\
            round_nearest_even (shr_m n1) (loc_of_shr_record n1) = rmant m).
  { destruct (Z.eq_dec (Zdigits2 m) 53) as [H53 | Hn53].
    - rewrite H53. change (53 - 53) with 0. cbn [shr].
      eexists; split; [f_equal; lia |].
      cbn [shr_m loc_of_shr_record round_nearest_even].
      unfold rmant. rewrite H53. change (53 <=? 53) with true. cbn iota.
      change (53 - 53) with 0. lia.
    - rewrite shr_exact by lia.
      eexists; split; [f_equal; lia |].
      rewrite round_sh by lia. unfold rmant.
      destruct (Z.leb_spec (Zdigits2 m) 53); [lia | reflexivity]. }
  destruct Hfst as (n1 & -> & ->).
  unfold ovf, rpair.
  destruct (Z.eqb_spec (rmant m) (2 ^ 53)) as [Hc | Hc].
  - rewrite Hc. change (Zdigits2 (2 ^ 53)) with 54.
    replace (Z.max (54 + (Zdigits2 m + e - 53) - 53) (3 - 1024 - 53)
               - (Zdigits2 m + e - 53)) with 1 by lia.
    rewrite shr_exact by lia. unfold sh. cbn [shr_m fst snd].
    change (2 ^ 53 / 2 ^ 1) with (2 ^ 52).
    change (1024 - 53) with 971.
    reflexivity.
  - assert (Hlt : rmant m < 2 ^ 53) by lia.
    assert (Hd1 : Zdigits2 (rmant m) = 53).
    { apply Zdigits2_unique; [lia |]. change (53 - 1) with 52. lia. }
    rewrite Hd1.
    replace (Z.max (53 + (Zdigits2 m + e - 53) - 53) (3 - 1024 - 53) - (Zdigits2 m + e - 53)) with 0 by lia.
    cbn [shr shr_m fst snd]. change (1024 - 53) with 971.
    destruct (rmant m) as [|p|p] eqn:Hp; try lia.
    reflexivity.
Qed.

(** The same for [binary_round], which first shifts a short mantissa left. *)

Lemma iter_xO p k : Zpos (Pos.iter xO p k) = Zpos p * 2 ^ Zpos k.
Proof.
  induction k as [|k IH] using Pos.peano_ind.
  - cbn [Pos.iter]. change (2 ^ 1) with 2. lia.
  - rewrite Pos.iter_succ, Pos2Z.inj_xO, IH, Pos2Z.inj_succ, Z.pow_succ_r by lia. ring.
Qed.

Lemma Zdigits2_shift m k : 0 < m -> 0 <= k -> Zdigits2 (m * 2 ^ k) = Zdigits2 m + k.
Proof.
  intros Hm Hk. pose proof (Zdigits2_bounds m Hm) as [Hl Hu].
  pose proof (Zdigits2_pos m Hm) as Hd.
  assert (Hp : 0 < 2 ^ k) by (apply Z.pow_pos_nonneg; lia).
  apply Zdigits2_unique; [nia |].
  replace (Zdigits2 m + k - 1) with ((Zdigits2 m - 1) + k) by lia.
  rewrite !Z.pow_add_r by lia. nia.
Qed.

Lemma rmant_shift m k : 0 < m -> 0 <= k -> rmant (m * 2 ^ k) = rmant m.
Proof.
  intros Hm Hk. unfold rmant. rewrite Zdigits2_shift by assumption.
  pose proof (Zdigits2_pos m Hm) as Hd.
  set (d := Zdigits2 m) in *.
  destruct (Z.leb_spec (d + k) 53) as [H1 | H1]; destruct (Z.leb_spec d 53) as [H2 | H2]; try lia.
  - rewrite <- Z.mul_assoc, <- Z.pow_add_r by lia. do 2 f_equal. lia.
  - replace (m * 2 ^ k) with (m * 2 ^ (53 - d) * 2 ^ (d + k - 53)).
    + apply rne_exact. lia.
    + rewrite <- Z.mul_assoc, <- Z.pow_add_r by lia. do 2 f_equal. lia.
  - replace (d + k - 53) with (d - 53 + k) by lia. apply rne_scale; lia.
Qed.

Lemma rpair_shift m e k : 0 < m -> 0 <= k -> rpair (m * 2 ^ k) (e - k) = rpair m e.
Proof.
  intros Hm Hk. unfold rpair. rewrite rmant_shift, Zdigits2_shift by assumption.
  replace (Zdigits2 m + k + (e - k) - 53) with (Zdigits2 m + e - 53) by lia.
  reflexivity.
Qed.

Lemma bround_eq s p e :
  -1074 <= Zdigits2 (Zpos p) + e - 53 ->
  binary_round 53 1024 s p e = ovf s (rpair (Zpos p) e).
Proof.
  intros He. unfold binary_round, shl_align, fexp, emin.
  change (Z.pos (digits2_pos p)) with (Zdigits2 (Zpos p)).
  pose proof (Zdigits2_pos (Zpos p) ltac:(lia)) as Hd.
  set (d := Zdigits2 (Zpos p)) in *.
  replace (Z.max (d + e - 53) (3 - 1024 - 53)) with (d + e - 53) by lia.
  destruct (d + e - 53 - e) as [|k|k] eqn:Hk.
  - rewrite bra_eq by (fold d; lia). reflexivity.
  - rewrite bra_eq by (fold d; lia). reflexivity.
  - rewrite iter_xO.
    assert (Hdk : Zdigits2 (Zpos p * 2 ^ Zpos k) = 53).
    { rewrite Zdigits2_shift by lia. fold d. lia. }
    rewrite bra_eq.
    + replace (d + e - 53) with (e - Zpos k) by lia.
      rewrite rpair_shift by lia. reflexivity.
    + assert (0 < 2 ^ Zpos k) by (apply Z.pow_pos_nonneg; lia). nia.
    + lia.
    + rewrite Hdk. lia.
Qed.

(** ** What a rounding does to the value: exactness and relative error *)

Lemma rpair_exact m e : 2 ^ 52 <= m < 2 ^ 53 -> rpair m e = (m, e).
Proof.
  intros Hm. assert (Hd : Zdigits2 m = 53) by (apply Zdigits2_unique; [lia | exact Hm]).
  unfold rpair, rmant. rewrite Hd. change (53 <=? 53) with true. cbn iota.
  change (53 - 53) with 0. rewrite Z.pow_0_r, Z.mul_1_r.
  destruct (Z.eqb_spec m (2 ^ 53)); [lia |]. f_equal. lia.
Qed.

Lemma rpair_value m e :
  0 < m -> (P2Q (rpair m e) == F2Q (rmant m) (Zdigits2 m + e - 53))%Q.
Proof.
  intros Hm. unfold rpair, P2Q.
  destruct (Z.eqb_spec (rmant m) (2 ^ 53)) as [-> | _]; cbn [fst snd]; [| reflexivity].
  rewrite <- (F2Q_shift (2 ^ 52) (Zdigits2 m + e - 53 + 1) 1) by lia.
  replace (Zdigits2 m + e - 53 + 1 - 1) with (Zdigits2 m + e - 53) by lia.
  reflexivity.
Qed.

Lemma F2Q_sub a b e : (F2Q a e - F2Q b e == F2Q (a - b) e)%Q.
Proof. unfold F2Q. unfold Z.sub. rewrite inject_Z_plus, inject_Z_opp. ring. Qed.

Lemma F2Q_pos m e : 0 < m -> (0 < F2Q m e)%Q.
Proof.
  intros Hm. unfold F2Q. apply Qmult_lt_0_compat; [| apply pow2_pos].
  change 0%Q with (inject_Z 0). rewrite <- Zlt_Qlt. assumption.
Qed.

Lemma rpair_err m e :
  0 < m ->
  ((1 - eps) * F2Q m e <= P2Q (rpair m e) /\ P2Q (rpair m e) <= (1 + eps) * F2Q m e)%Q.
Proof.
  intros Hm. rewrite rpair_value by assumption.
  pose proof (Zdigits2_bounds m Hm) as [Hl Hu].
  pose proof (Zdigits2_pos m Hm) as Hd.
  pose proof (F2Q_pos m e Hm) as Hpos.
  unfold rmant. set (d := Zdigits2 m) in *.
  destruct (Z.leb_spec d 53) as [Hle | Hgt].
  - replace (d + e - 53) with (e - (53 - d)) by lia.
    rewrite F2Q_shift by lia.
    eps_literal. split; lra.
  - pose proof (rne_err m (d - 53) ltac:(lia)) as Herr.
    set (r := rne m (d - 53)) in *.
    assert (Hsh : (F2Q r (d + e - 53) == F2Q (r * 2 ^ (d - 53)) e)%Q).
    { rewrite <- (F2Q_shift r (d + e - 53) (d - 53)) by lia.
      replace (d + e - 53 - (d - 53)) with e by lia. reflexivity. }
    rewrite Hsh.
    assert (Hbig : 2 ^ 53 * Z.abs (r * 2 ^ (d - 53) - m) <= m).
    { assert (H2 : 2 ^ (d - 1) = 2 ^ 52 * 2 ^ (d - 53)).
      { rewrite <- Z.pow_add_r by lia. f_equal. lia. }
      change (2 ^ 52) with 4503599627370496 in H2.
      change (2 ^ 53) with 9007199254740992. lia. }
    set (x := r * 2 ^ (d - 53)) in *.
    assert (Hlo : (F2Q (2 ^ 53 * (m - x)) e <= F2Q m e)%Q) by (apply F2Q_le; lia).
    assert (Hhi : (F2Q (2 ^ 53 * (x - m)) e <= F2Q m e)%Q) by (apply F2Q_le; lia).
    unfold F2Q in *. rewrite inject_Z_mult in Hlo, Hhi.
    unfold Z.sub in Hlo, Hhi. rewrite inject_Z_plus, inject_Z_opp in Hlo, Hhi.
    change (inject_Z (2 ^ 53)) with (9007199254740992 # 1)%Q in Hlo, Hhi.
    eps_literal.
    set (X := inject_Z x) in *. set (M := inject_Z m) in *. set (P := pow2 e) in *.
    split; lra.
Qed.

(** ** The order of normal pairs is the order of their values, and the
    comparisons of the floats follow it *)

Lemma F2Q_bounds m e a b :
  0 <= a -> 0 <= b -> 2 ^ a <= m < 2 ^ b ->
  (pow2 (a + e) <= F2Q m e /\ F2Q m e < pow2 (b + e))%Q.
Proof.
  intros Ha Hb [Hl Hu].
  assert (Hpa : (pow2 (a + e) == F2Q (2 ^ a) e)%Q).
  { unfold F2Q. rewrite pow2_add, pow2_Z by assumption. reflexivity. }
  assert (Hpb : (pow2 (b + e) == F2Q (2 ^ b) e)%Q).
  { unfold F2Q. rewrite pow2_add, pow2_Z by assumption. reflexivity. }
  rewrite Hpa, Hpb.
  split; [apply F2Q_le | apply F2Q_lt]; assumption.
Qed.

Lemma plt_P2Q p q : normal p -> normal q -> plt p q -> (P2Q p < P2Q q)%Q.
Proof.
  intros Hp Hq [Hlt | [Heq Hlt]]; unfold P2Q.
  - destruct (F2Q_bounds (fst p) (snd p) 52 53 ltac:(lia) ltac:(lia) Hp) as [_ Hu].
    destruct (F2Q_bounds (fst q) (snd q) 52 53 ltac:(lia) ltac:(lia) Hq) as [Hl _].
    assert (Hpw : (pow2 (53 + snd p) <= pow2 (52 + snd q))%Q) by (apply pow2_le; lia).
    lra.
  - rewrite Heq. apply F2Q_lt. assumption.
Qed.

Lemma ple_P2Q p q : normal p -> normal q -> ple p q -> (P2Q p <= P2Q q)%Q.
Proof.
  intros Hp Hq [Hlt | [Heq Hle]].
  - apply Qlt_le_weak, plt_P2Q; [assumption .. | left; assumption].
  - unfold P2Q. rewrite Heq. apply F2Q_le. assumption.
Qed.

Lemma plt_or_ple p q : plt p q \/ ple q p.
Proof. unfold plt, ple. lia. Qed.

Lemma P2Q_lt_plt p q : normal p -> normal q -> (P2Q p < P2Q q)%Q -> plt p q.
Proof.
  intros Hp Hq H. destruct (plt_or_ple p q) as [|Hle]; [assumption |].
  apply (ple_P2Q q p Hq Hp) in Hle. lra.
Qed.

Lemma P2Q_le_ple p q : normal p -> normal q -> (P2Q p <= P2Q q)%Q -> ple p q.
Proof.
  intros Hp Hq H. destruct (plt_or_ple q p) as [Hlt | Hle]; [| assumption].
  apply (plt_P2Q q p Hq Hp) in Hlt. lra.
Qed.

Lemma ovf_leb p q :
  normal p -> normal q -> ple p q -> SFleb (ovf false p) (ovf false q) = true.
Proof.
  intros Hp Hq Hle. unfold ovf, normal, ple in *.
  destruct p as [m1 e1], q as [m2 e2]; cbn [fst snd] in *.
  destruct (Z.leb_spec e2 971) as [H2 | H2]; destruct (Z.leb_spec e1 971) as [H1 | H1];
    try reflexivity; try lia.
  unfold SFleb, SFcompare.
  destruct (Z.compare_spec e1 e2) as [He | He | He]; try reflexivity; try lia.
  change (PosDef.Pos.compare_cont Eq (Z.to_pos m1) (Z.to_pos m2))
    with (Pos.compare (Z.to_pos m1) (Z.to_pos m2)).
  rewrite <- Z2Pos.inj_compare by lia.
  destruct (Z.compare_spec m1 m2); try reflexivity; lia.
Qed.

Lemma ovf_ltb p q :
  normal p -> normal q -> plt p q -> snd p <= 971 ->
  SFltb (ovf false p) (ovf false q) = true.
Proof.
  intros Hp Hq Hlt Hf. unfold ovf, normal, plt in *.
  destruct p as [m1 e1], q as [m2 e2]; cbn [fst snd] in *.
  destruct (Z.leb_spec e1 971) as [H1 | H1]; [| lia].
  destruct (Z.leb_spec e2 971) as [H2 | H2]; [| reflexivity].
  unfold SFltb, SFcompare.
  destruct (Z.compare_spec e1 e2) as [He | He | He]; try reflexivity; try lia.
  change (PosDef.Pos.compare_cont Eq (Z.to_pos m1) (Z.to_pos m2))
    with (Pos.compare (Z.to_pos m1) (Z.to_pos m2)).
  rewrite <- Z2Pos.inj_compare by lia.
  destruct (Z.compare_spec m1 m2); try reflexivity; lia.
Qed.

(** ** Rounding is monotone *)

Lemma Zdigits2_mono m m' : 0 < m -> m <= m' -> Zdigits2 m <= Zdigits2 m'.
Proof.
  intros Hm Hle.
  pose proof (Zdigits2_bounds m Hm) as [Hl _].
  pose proof (Zdigits2_bounds m' ltac:(lia)) as [_ Hu].
  pose proof (Zdigits2_pos m Hm). pose proof (Zdigits2_pos m' ltac:(lia)).
  destruct (Z.le_gt_cases (Zdigits2 m) (Zdigits2 m')) as [|Hgt]; [assumption | exfalso].
  assert (2 ^ Zdigits2 m' <= 2 ^ (Zdigits2 m - 1)) by (apply Z.pow_le_mono_r; lia).
  lia.
Qed.

Lemma rpair_snd m e :
  0 < m -> Zdigits2 m + e - 53 <= snd (rpair m e) <= Zdigits2 m + e - 53 + 1.
Proof. intros Hm. unfold rpair. destruct (rmant m =? 2 ^ 53); cbn [snd]; lia. Qed.

Lemma rpair_mono_aligned m m' e :
  0 < m -> m <= m' -> 53 < Zdigits2 m -> ple (rpair m e) (rpair m' e).
Proof.
  intros Hm Hle Hd.
  pose proof (Zdigits2_mono m m' Hm Hle) as Hdd.
  pose proof (rmant_bounds m Hm) as Hb. pose proof (rmant_bounds m' ltac:(lia)) as Hb'.
  destruct (Z.eq_dec (Zdigits2 m) (Zdigits2 m')) as [Heq | Hne].
  - assert (Hr : rmant m <= rmant m').
    { unfold rmant. rewrite <- Heq.
      destruct (Z.leb_spec (Zdigits2 m) 53); [lia |]. apply rne_mono; lia. }
    unfold rpair, ple. rewrite <- Heq.
    destruct (Z.eqb_spec (rmant m) (2 ^ 53)); destruct (Z.eqb_spec (rmant m') (2 ^ 53));
      cbn [fst snd]; lia.
  - pose proof (rpair_snd m e Hm) as Hs. pose proof (rpair_snd m' e ltac:(lia)) as Hs'.
    pose proof (rpair_normal m e Hm) as Hn. pose proof (rpair_normal m' e ltac:(lia)) as Hn'.
    unfold ple.
    destruct (Z.lt_ge_cases (snd (rpair m e)) (snd (rpair m' e))) as [|Hge]; [left; assumption |].
    right. split; [lia |].
    assert (Hc : snd (rpair m e) = Zdigits2 m + e - 53 + 1) by lia.
    unfold rpair in Hc |- *.
    destruct (Z.eqb_spec (rmant m) (2 ^ 53)); cbn [fst snd] in *; [| lia].
    destruct (Z.eqb_spec (rmant m') (2 ^ 53)); cbn [fst snd] in *; lia.
Qed.

Lemma rpair_mono m e m' e' :
  0 < m -> 0 < m' -> (F2Q m e <= F2Q m' e')%Q -> ple (rpair m e) (rpair m' e').
Proof.
  intros Hm Hm' Hle.
  set (e0 := Z.min e e' - 53).
  rewrite <- (rpair_shift m e (e - e0)) by lia.
  rewrite <- (rpair_shift m' e' (e' - e0)) by lia.
  rewrite <- (F2Q_shift m e (e - e0)), <- (F2Q_shift m' e' (e' - e0)) in Hle by lia.
  replace (e - (e - e0)) with e0 in * by lia.
  replace (e' - (e' - e0)) with e0 in * by lia.
  apply F2Q_le in Hle.
  assert (Hp : 0 < 2 ^ (e - e0)) by (apply Z.pow_pos_nonneg; lia).
  apply rpair_mono_aligned; [nia | assumption |].
  rewrite Zdigits2_shift by lia. pose proof (Zdigits2_pos m Hm). lia.
Qed.

(** ** The operations of the estimator on positive normal floats *)

Lemma ovf_fin p : snd p <= 971 -> ovf false p = fin p.
Proof. intros H. unfold ovf, fin. destruct (Z.leb_spec (snd p) 971); [reflexivity | lia]. Qed.

Lemma ovf_inf s p : 971 < snd p -> ovf s p = S754_infinity s.
Proof. intros H. unfold ovf. destruct (Z.leb_spec (snd p) 971); [lia | reflexivity]. Qed.

Lemma round_pos m e :
  0 < m -> -1021 <= Zdigits2 m + e -> B64.round m e = ovf false (rpair m e).
Proof.
  intros Hm He. destruct m as [|p|p]; try lia.
  unfold B64.round, B64.prec, B64.emax, binary_normalize.
  apply bround_eq. lia.
Qed.

Lemma round_neg m e :
  m < 0 -> -1021 <= Zdigits2 m + e -> B64.round m e = ovf true (rpair (- m) e).
Proof.
  intros Hm He. destruct m as [|p|p]; try lia.
  unfold B64.round, B64.prec, B64.emax, binary_normalize.
  cbn [Z.opp]. apply bround_eq. cbn [Zdigits2] in *. lia.
Qed.

Lemma int_to_float_pos n :
  0 < n ->
  int_to_float n =
  if snd (rpair n 0) <=? 971 then Ok (fin (rpair n 0)) else Raise OverflowError.
Proof.
  intros Hn. unfold int_to_float.
  pose proof (Zdigits2_pos n Hn).
  rewrite round_pos by lia. unfold ovf, fin.
  destruct (snd (rpair n 0) <=? 971); reflexivity.
Qed.

Lemma normal_pos p : normal p -> 0 < fst p.
Proof. unfold normal. lia. Qed.

Lemma rpair_is_normal m e : 0 < m -> normal (rpair m e).
Proof. apply rpair_normal. Qed.

Lemma mul_fin p q :
  normal p -> normal q -> -1126 <= snd p + snd q ->
  B64.mul (fin p) (fin q) = ovf false (rpair (fst p * fst q) (snd p + snd q)).
Proof.
  intros Hp Hq He. unfold B64.mul, fin, SFmul. cbn [xorb].
  fold B64.prec. unfold B64.prec, B64.emax.
  assert (Hprod : Zpos (Z.to_pos (fst p) * Z.to_pos (fst q)) = fst p * fst q).
  { rewrite Pos2Z.inj_mul, !Z2Pos.id by (apply normal_pos; assumption). reflexivity. }
  rewrite Hprod.
  unfold normal in *.
  assert (Hlow : 2 ^ 104 <= fst p * fst q).
  { change (2 ^ 104) with (2 ^ 52 * 2 ^ 52). nia. }
  assert (Hd : 105 <= Zdigits2 (fst p * fst q)).
  { pose proof (Zdigits2_bounds (fst p * fst q) ltac:(lia)) as [_ Hu].
    destruct (Z.le_gt_cases 105 (Zdigits2 (fst p * fst q))) as [|Hgt]; [assumption | exfalso].
    assert (2 ^ Zdigits2 (fst p * fst q) <= 2 ^ 104).
    { apply Z.pow_le_mono_r; lia. }
    lia. }
  apply bra_eq; lia.
Qed.

Lemma P2Q_mul p q :
  (F2Q (fst p * fst q) (snd p + snd q) == P2Q p * P2Q q)%Q.
Proof. unfold P2Q, F2Q. rewrite inject_Z_mult, pow2_add. ring. Qed.

Lemma P2Q_pos p : normal p -> (0 < P2Q p)%Q.
Proof. intros H. apply F2Q_pos, normal_pos, H. Qed.

Lemma shl_align_fst mx ex ez :
  ez <= ex -> Zpos (fst (shl_align mx ex ez)) = Zpos mx * 2 ^ (ex - ez).
Proof.
  intros H. unfold shl_align.
  destruct (ez - ex) as [|d|d] eqn:Hd; cbn [fst].
  - replace (ex - ez) with 0 by lia. lia.
  - lia.
  - rewrite iter_xO. do 2 f_equal. lia.
Qed.

Lemma aligned_pos p ez : normal p -> ez <= snd p -> 0 < aligned p ez.
Proof.
  intros Hp He. unfold aligned.
  assert (0 < 2 ^ (snd p - ez)) by (apply Z.pow_pos_nonneg; lia).
  pose proof (normal_pos p Hp). nia.
Qed.

Lemma aligned_ge p ez : normal p -> ez <= snd p -> 2 ^ 52 <= aligned p ez.
Proof.
  intros Hp He. unfold aligned.
  assert (0 < 2 ^ (snd p - ez)) by (apply Z.pow_pos_nonneg; lia).
  unfold normal in Hp. nia.
Qed.

Lemma aligned_value p ez : ez <= snd p -> (F2Q (aligned p ez) ez == P2Q p)%Q.
Proof.
  intros He. unfold aligned, P2Q.
  rewrite <- (F2Q_shift (fst p) (snd p) (snd p - ez)) by lia.
  replace (snd p - (snd p - ez)) with ez by lia. reflexivity.
Qed.

Lemma F2Q_add a b e : (F2Q a e + F2Q b e == F2Q (a + b) e)%Q.
Proof. unfold F2Q. rewrite inject_Z_plus. ring. Qed.

Lemma Zdigits2_ge m k : 0 <= k -> 2 ^ k <= m -> k < Zdigits2 m.
Proof.
  intros Hk Hm. assert (Hp : 0 < 2 ^ k) by (apply Z.pow_pos_nonneg; lia).
  pose proof (Zdigits2_bounds m ltac:(lia)) as [_ Hu].
  destruct (Z.lt_ge_cases k (Zdigits2 m)) as [|Hge]; [assumption | exfalso].
  assert (2 ^ Zdigits2 m <= 2 ^ k).
  { apply Z.pow_le_mono_r; [lia | assumption]. }
  lia.
Qed.

Lemma add_fin p q :
  normal p -> normal q -> -1074 <= snd p -> -1074 <= snd q ->
  B64.add (fin p) (fin q) = ovf false (add_pair p q).
Proof.
  intros Hp Hq Hep Heq. unfold B64.add, fin, SFadd, add_pair.
  cbn [cond_Zopp].
  set (ez := Z.min (snd p) (snd q)).
  rewrite !shl_align_fst by lia.
  rewrite !Z2Pos.id by (apply normal_pos; assumption).
  fold (aligned p ez) (aligned q ez).
  pose proof (aligned_ge p ez Hp ltac:(lia)). pose proof (aligned_ge q ez Hq ltac:(lia)).
  fold (B64.round (aligned p ez + aligned q ez) ez).
  apply round_pos; [lia |].
  pose proof (Zdigits2_ge (aligned p ez + aligned q ez) 52 ltac:(lia) ltac:(lia)). lia.
Qed.

Lemma add_pair_value p q :
  normal p -> normal q ->
  normal (add_pair p q) /\ approx eps (P2Q p + P2Q q) (P2Q (add_pair p q)).
Proof.
  intros Hp Hq. unfold add_pair. set (ez := Z.min (snd p) (snd q)).
  pose proof (aligned_pos p ez Hp ltac:(lia)). pose proof (aligned_pos q ez Hq ltac:(lia)).
  split; [apply rpair_is_normal; lia |].
  unfold approx.
  rewrite <- (aligned_value p ez), <- (aligned_value q ez), F2Q_add by lia.
  apply rpair_err. lia.
Qed.

Lemma mul_pair_value p q :
  normal p -> normal q ->
  normal (mul_pair p q) /\ approx eps (P2Q p * P2Q q) (P2Q (mul_pair p q)).
Proof.
  intros Hp Hq. unfold mul_pair.
  pose proof (normal_pos p Hp). pose proof (normal_pos q Hq).
  split; [apply rpair_is_normal; nia |].
  unfold approx. rewrite <- P2Q_mul. apply rpair_err. nia.
Qed.

Lemma ple_aligned p q ez :
  normal p -> normal q -> ez <= snd p -> ez <= snd q ->
  ple q p -> aligned q ez <= aligned p ez.
Proof.
  intros Hp Hq Hep Heq Hle.
  apply ple_P2Q in Hle; [| assumption ..].
  rewrite <- (aligned_value p ez), <- (aligned_value q ez) in Hle by assumption.
  apply F2Q_le in Hle. assumption.
Qed.

Lemma sub_fin p q :
  normal p -> normal q -> -1021 <= snd p -> -1021 <= snd q -> ple q p ->
  B64.sub (fin p) (fin q) =
  if aligned p (Z.min (snd p) (snd q)) - aligned q (Z.min (snd p) (snd q)) =? 0
  then S754_zero false else ovf false (sub_pair p q).
Proof.
  intros Hp Hq Hep Heq Hle. unfold B64.sub, fin, SFsub, sub_pair.
  cbn [cond_Zopp].
  set (ez := Z.min (snd p) (snd q)).
  rewrite !shl_align_fst by lia.
  rewrite !Z2Pos.id by (apply normal_pos; assumption).
  fold (aligned p ez) (aligned q ez).
  pose proof (ple_aligned p q ez Hp Hq ltac:(lia) ltac:(lia) Hle) as Hd.
  destruct (Z.eqb_spec (aligned p ez - aligned q ez) 0) as [H0 | H0].
  - rewrite H0. reflexivity.
  - fold (B64.round (aligned p ez - aligned q ez) ez).
    apply round_pos; [lia |].
    pose proof (Zdigits2_pos (aligned p ez - aligned q ez) ltac:(lia)). lia.
Qed.

Lemma sub_pair_value p q :
  normal p -> normal q -> plt q p ->
  normal (sub_pair p q) /\ approx eps (P2Q p - P2Q q) (P2Q (sub_pair p q)).
Proof.
  intros Hp Hq Hlt. unfold sub_pair. set (ez := Z.min (snd p) (snd q)).
  assert (Hd : aligned q ez < aligned p ez).
  { apply plt_P2Q in Hlt; [| assumption ..].
    rewrite <- (aligned_value p ez), <- (aligned_value q ez) in Hlt by lia.
    apply F2Q_lt in Hlt. assumption. }
  split; [apply rpair_is_normal; lia |].
  unfold approx.
  rewrite <- (aligned_value p ez), <- (aligned_value q ez), F2Q_sub by lia.
  apply rpair_err. lia.
Qed.

Lemma sub_fin_lt p q :
  normal p -> normal q -> -1021 <= snd p -> -1021 <= snd q -> plt q p ->
  B64.sub (fin p) (fin q) = ovf false (sub_pair p q).
Proof.
  intros Hp Hq Hep Heq Hlt.
  rewrite sub_fin; [| assumption .. | unfold plt, ple in *; lia].
  set (ez := Z.min (snd p) (snd q)).
  assert (Hd : aligned q ez < aligned p ez).
  { apply plt_P2Q in Hlt; [| assumption ..].
    rewrite <- (aligned_value p ez), <- (aligned_value q ez) in Hlt by lia.
    apply F2Q_lt in Hlt. assumption. }
  destruct (Z.eqb_spec (aligned p ez - aligned q ez) 0); [lia | reflexivity].
Qed.

(** *** True division of two positive integers *)

Lemma round_ratio_pos a b :
  0 < a -> 0 < b ->
  B64.round_ratio a b = B64.round (ratio_mant a b) (- ratio_shift a b - 1).
Proof.
  intros Ha Hb. unfold B64.round_ratio, ratio_mant, ratio_shift.
  rewrite Z.abs_eq by lia.
  set (s := Z.max 0 (Zdigits2 b + 55 - Zdigits2 a)).
  unfold Z.div, Z.modulo.
  destruct (Z.div_eucl (a * 2 ^ s) b) as [q r].
  destruct (Z.ltb_spec a 0); [lia | reflexivity].
Qed.

Lemma ratio_mant_spec a b :
  0 < a -> 0 < b ->
  let x := a * 2 ^ ratio_shift a b in
  let m := ratio_mant a b in
  2 ^ 55 <= m /\ 2 ^ 55 * (2 * x - m * b) <= 2 * x /\ 2 ^ 55 * (m * b - 2 * x) <= 2 * x.
Proof.
  intros Ha Hb x m.
  pose proof (Zdigits2_bounds a Ha) as [Hal Hau].
  pose proof (Zdigits2_bounds b Hb) as [Hbl Hbu].
  pose proof (Zdigits2_pos a Ha) as Hda. pose proof (Zdigits2_pos b Hb) as Hdb.
  assert (Hs : 0 <= ratio_shift a b) by (unfold ratio_shift; lia).
  assert (Hs' : Zdigits2 b + 55 - Zdigits2 a <= ratio_shift a b) by (unfold ratio_shift; lia).
  assert (Hx : 2 ^ 54 * b <= x).
  { subst x.
    assert (H1 : 2 ^ (Zdigits2 b + 54) <= 2 ^ (Zdigits2 a - 1 + ratio_shift a b)).
    { apply Z.pow_le_mono_r; lia. }
    rewrite !Z.pow_add_r in H1 by lia.
    assert (0 < 2 ^ ratio_shift a b) by (apply Z.pow_pos_nonneg; lia).
    change (2 ^ 54) with 18014398509481984 in *. nia. }
  assert (Hq : 2 ^ 54 <= x / b).
  { apply Z.div_le_lower_bound; lia. }
  pose proof (Z.div_mod x b ltac:(lia)) as Hdm.
  pose proof (Z.mod_pos_bound x b Hb) as Hr.
  subst m. unfold ratio_mant. fold x.
  change (2 ^ 55) with 36028797018963968. change (2 ^ 54) with 18014398509481984 in *.
  destruct (Z.eqb_spec (x mod b) 0) as [H0 | H0]; nia.
Qed.

Lemma ratio_fin a b :
  0 < a -> 0 < b -> b < 2 ^ 1000 ->
  B64.round_ratio a b = ovf false (ratio_pair a b).
Proof.
  intros Ha Hb Hbb. rewrite round_ratio_pos by assumption.
  destruct (ratio_mant_spec a b Ha Hb) as (Hm & _).
  unfold ratio_pair. apply round_pos; [lia |].
  pose proof (Zdigits2_ge (ratio_mant a b) 55 ltac:(lia) Hm).
  pose proof (Zdigits2_pos a Ha).
  assert (Zdigits2 b <= 1000).
  { pose proof (Zdigits2_bounds b Hb) as [Hl _].
    destruct (Z.le_gt_cases (Zdigits2 b) 1000) as [|Hgt]; [assumption | exfalso].
    assert (2 ^ 1000 <= 2 ^ (Zdigits2 b - 1)) by (apply Z.pow_le_mono_r; lia). lia. }
  unfold ratio_shift. lia.
Qed.

Lemma ratio_value a b :
  0 < a -> 0 < b ->
  approx (1 # 2 ^ 55) (inject_Z a / inject_Z b)
         (F2Q (ratio_mant a b) (- ratio_shift a b - 1)).
Proof.
  intros Ha Hb.
  destruct (ratio_mant_spec a b Ha Hb) as (Hm & Hlo & Hhi).
  assert (Hs : 0 <= ratio_shift a b) by (unfold ratio_shift; lia).
  set (s := ratio_shift a b) in *. set (m := ratio_mant a b) in *.
  set (x := a * 2 ^ s) in *.
  pose proof (pow2_pos (- s - 1)) as HP.
  assert (HB : (0 < inject_Z b)%Q) by (change 0%Q with (inject_Z 0); rewrite <- Zlt_Qlt; lia).
  assert (HA : (inject_Z a == inject_Z (2 * x) * pow2 (- s - 1))%Q).
  { fold (F2Q (2 * x) (- s - 1)). subst x.
    replace (2 * (a * 2 ^ s)) with (a * 2 ^ (s + 1)).
    - replace (- s - 1) with (0 - (s + 1)) by lia.
      rewrite F2Q_shift by lia. unfold F2Q, pow2. cbn. ring.
    - rewrite Z.pow_add_r by lia. change (2 ^ 1) with 2. ring. }
  rewrite Zle_Qle in Hlo, Hhi.
  rewrite !inject_Z_mult in Hlo, Hhi. unfold Z.sub in Hlo, Hhi.
  rewrite !inject_Z_plus, !inject_Z_opp, !inject_Z_mult in Hlo, Hhi.
  change (inject_Z (2 ^ 55)) with (36028797018963968 # 1)%Q in Hlo, Hhi.
  change (inject_Z 2) with (2 # 1)%Q in Hlo, Hhi.
  assert (Hk : (0 < pow2 (- s - 1) / inject_Z b)%Q).
  { apply Qlt_shift_div_l; [assumption | lra]. }
  unfold approx, F2Q.
  change (1 # 2 ^ 55)%Q with (1 # 36028797018963968)%Q.
  rewrite HA, inject_Z_mult. change (inject_Z 2) with (2 # 1)%Q.
  set (X := inject_Z x) in *. set (M := inject_Z m) in *.
  set (B := inject_Z b) in *. set (P := pow2 (- s - 1)) in *.
  assert (E1 : ((1 - (1 # 36028797018963968)) * ((2 # 1) * X * P / B)
                == ((1 - (1 # 36028797018963968)) * ((2 # 1) * X)) * (P / B))%Q).
  { field. lra. }
  assert (E2 : ((1 + (1 # 36028797018963968)) * ((2 # 1) * X * P / B)
                == ((1 + (1 # 36028797018963968)) * ((2 # 1) * X)) * (P / B))%Q).
  { field. lra. }
  assert (E3 : (M * P == (M * B) * (P / B))%Q).
  { field. lra. }
  rewrite E1, E2, E3.
  split; apply Qmult_le_compat_r; lra.
Qed.

(** *** Exponents from values *)

Lemma normal_snd_lt p k : normal p -> (P2Q p < pow2 k)%Q -> snd p < k - 52.
Proof.
  intros Hp H.
  destruct (F2Q_bounds (fst p) (snd p) 52 53 ltac:(lia) ltac:(lia) Hp) as [Hl _].
  fold (P2Q p) in Hl.
  assert (Hlt : (pow2 (52 + snd p) < pow2 k)%Q) by lra.
  apply pow2_lt_inv in Hlt. lia.
Qed.

Lemma normal_snd_gt p k : normal p -> (pow2 k <= P2Q p)%Q -> k - 53 < snd p.
Proof.
  intros Hp H.
  destruct (F2Q_bounds (fst p) (snd p) 52 53 ltac:(lia) ltac:(lia) Hp) as [_ Hu].
  fold (P2Q p) in Hu.
  assert (Hlt : (pow2 k < pow2 (53 + snd p))%Q) by lra.
  apply pow2_lt_inv in Hlt. lia.
Qed.

Lemma normal_P2Q_lt p : normal p -> snd p <= 971 -> (P2Q p < pow2 1024)%Q.
Proof.
  intros Hp Hs.
  destruct (F2Q_bounds (fst p) (snd p) 52 53 ltac:(lia) ltac:(lia) Hp) as [_ Hu].
  fold (P2Q p) in Hu.
  assert (Hle : (pow2 (53 + snd p) <= pow2 1024)%Q) by (apply pow2_le; lia).
  lra.
Qed.

Lemma to_Q_fin p : normal p -> (B64.to_Q (fin p) == P2Q p)%Q.
Proof.
  intros Hp. unfold B64.to_Q, fin, P2Q, F2Q, pow2.
  rewrite Z2Pos.id by (apply normal_pos; assumption). reflexivity.
Qed.

(** *** Integers, factors and costs *)

Lemma int_pair_normal n : 0 < n -> normal (int_pair n).
Proof. apply rpair_is_normal. Qed.

Lemma F2Q_0 n : (F2Q n 0 == inject_Z n)%Q.
Proof. unfold F2Q, pow2. cbn. ring. Qed.

Lemma int_pair_value n : 0 < n -> approx eps (inject_Z n) (P2Q (int_pair n)).
Proof.
  intros Hn. unfold approx. rewrite <- (F2Q_0 n). apply rpair_err. assumption.
Qed.

Lemma int_pair_mono n n' : 0 < n -> n <= n' -> ple (int_pair n) (int_pair n').
Proof.
  intros Hn Hle. apply rpair_mono; [lia | lia |]. apply F2Q_le. assumption.
Qed.

Lemma factor_fin t : complexityFactor t = fin (factor_pair t).
Proof. destruct t; reflexivity. Qed.

Lemma factor_normal t : normal (factor_pair t).
Proof. destruct t; unfold normal; cbn [factor_pair fst]; lia. Qed.

Lemma factor_snd t : -53 <= snd (factor_pair t) <= -52.
Proof. destruct t; cbn; lia. Qed.

Lemma int_pair_snd n : 0 < n -> -52 <= snd (int_pair n).
Proof.
  intros Hn. pose proof (rpair_snd n 0 Hn). pose proof (Zdigits2_pos n Hn).
  unfold int_pair. lia.
Qed.

Lemma int_mul_float_pos n f :
  0 < n -> normal f -> -1074 <= snd f ->
  int_mul_float n (fin f) =
  if snd (int_pair n) <=? 971 then Ok (ovf false (cost_pair n f)) else Raise OverflowError.
Proof.
  intros Hn Hf Hs. unfold int_mul_float. rewrite int_to_float_pos by assumption.
  fold (int_pair n).
  destruct (snd (int_pair n) <=? 971); cbn [bind]; [| reflexivity].
  rewrite mul_fin; [reflexivity | apply int_pair_normal; assumption | assumption |].
  pose proof (int_pair_snd n Hn). lia.
Qed.

Lemma cost_pair_normal n f : 0 < n -> normal f -> normal (cost_pair n f).
Proof.
  intros Hn Hf. apply mul_pair_value; [apply int_pair_normal |]; assumption.
Qed.

Lemma cost_pair_mono n n' f :
  0 < n -> n <= n' -> normal f -> ple (cost_pair n f) (cost_pair n' f).
Proof.
  intros Hn Hle Hf. unfold cost_pair, mul_pair.
  pose proof (int_pair_normal n Hn) as Hi. pose proof (int_pair_normal n' ltac:(lia)) as Hi'.
  pose proof (normal_pos _ Hi). pose proof (normal_pos _ Hi'). pose proof (normal_pos _ Hf).
  apply rpair_mono; [nia | nia |].
  rewrite !P2Q_mul.
  apply Qmult_le_compat_r; [| apply Qlt_le_weak, P2Q_pos; assumption].
  apply ple_P2Q; [assumption .. |]. apply int_pair_mono; assumption.
Qed.

Lemma mul_pair_one p : normal p -> mul_pair p one_pair = p.
Proof.
  intros Hp. unfold mul_pair, one_pair. cbn [fst snd].
  replace (snd p + -52) with (snd p - 52) by lia.
  rewrite rpair_shift by (pose proof (normal_pos p Hp); lia).
  rewrite rpair_exact by exact Hp. destruct p; reflexivity.
Qed.

Lemma leb_zero_ovf p : B64.leb (S754_zero false) (ovf false p) = true.
Proof. unfold ovf. destruct (snd p <=? 971); reflexivity. Qed.

(** ** The estimator, unfolded *)

Lemma getitem_tier t : getitem complexity_factor (tier_name t) = Ok (complexityFactor t).
Proof. destruct t; reflexivity. Qed.


Lemma tier_of_name c :
  In c ["Low"; "Medium"; "High"]%string -> exists t, c = tier_name t.
Proof.
  intros [<- | [<- | [<- | []]]]; [exists Low | exists Medium | exists High]; reflexivity.
Qed.

Lemma calculate_costs_and_roi_eq t u m roi :
  calculate_costs_and_roi u m (tier_name t) roi =
  (a <- spec_costA t u m ;;
   b <- spec_costB t u m ;;
   ra <- code_roi a roi ;;
   rb <- code_roi b roi ;;
   Ok (mkEstimate a b ra rb)).
Proof.
  unfold calculate_costs_and_roi, spec_costA, spec_costB, code_roi.
  rewrite getitem_tier. cbn [bind].
  destruct (int_mul_float (u * 100 * m + 50000) (complexityFactor t)) as [a | ea];
    cbn [bind]; [| reflexivity].
  destruct (int_mul_float (u * 40 * m + 30000) (complexityFactor t)) as [b | eb];
    cbn [bind]; [| reflexivity].
  destruct (int_truediv roi 100) as [p | ep]; cbn [bind]; [| reflexivity].
  destruct (int_add_float 1 p) as [g | eg]; cbn [bind]; reflexivity.
Qed.

Lemma calculate_ok_inv t u m roi e :
  calculate_costs_and_roi u m (tier_name t) roi = Ok e ->
  spec_costA t u m = Ok (ms_stack_cost e) /\
  spec_costB t u m = Ok (power_apps_cost e) /\
  code_roi (ms_stack_cost e) roi = Ok (ms_roi e) /\
  code_roi (power_apps_cost e) roi = Ok (pa_roi e).
Proof.
  rewrite calculate_costs_and_roi_eq.
  destruct (spec_costA t u m) as [a | ?]; cbn [bind]; [| discriminate].
  destruct (spec_costB t u m) as [b | ?]; cbn [bind]; [| discriminate].
  destruct (code_roi a roi) as [ra | ?] eqn:Hra; cbn [bind]; [| discriminate].
  destruct (code_roi b roi) as [rb | ?] eqn:Hrb; cbn [bind]; [| discriminate].
  intros [= <-]. cbn [ms_stack_cost power_apps_cost ms_roi pa_roi].
  repeat split; assumption || reflexivity.
Qed.

Lemma int_mul_float_ok_inv n t c :
  0 < n ->
  int_mul_float n (complexityFactor t) = Ok c ->
  snd (int_pair n) <= 971 /\ c = ovf false (cost_pair n (factor_pair t)).
Proof.
  intros Hn. rewrite factor_fin.
  rewrite int_mul_float_pos; [| assumption | apply factor_normal | pose proof (factor_snd t); lia].
  destruct (Z.leb_spec (snd (int_pair n)) 971); [| discriminate].
  intros [= <-]. auto.
Qed.

Lemma baseA_pos u m : 0 < u -> 0 < m -> 50000 < u * 100 * m + 50000.
Proof. intros Hu Hm. assert (0 < u * m) by (apply Z.mul_pos_pos; assumption). lia. Qed.

Lemma baseB_pos u m : 0 < u -> 0 < m -> 30000 < u * 40 * m + 30000.
Proof. intros Hu Hm. assert (0 < u * m) by (apply Z.mul_pos_pos; assumption). lia. Qed.

Lemma base_mono u u' m m' k :
  0 < u -> u <= u' -> 0 < m -> m <= m' -> 0 < k -> u * k * m <= u' * k * m'.
Proof.
  intros Hu Hle Hm Hle' Hk.
  assert (u * m <= u' * m') by (apply Z.mul_le_mono_nonneg; lia).
  replace (u * k * m) with (k * (u * m)) by ring.
  replace (u' * k * m') with (k * (u' * m')) by ring.
  apply Z.mul_le_mono_nonneg_l; lia.
Qed.

(** *** The factors and the order of the costs *)

Lemma factor_value t :
  (P2Q (factor_pair t) ==
   match t with
   | Low => 7205759403792794 # 9007199254740992
   | Medium => 1
   | High => 5854679515581645 # 4503599627370496
   end)%Q.
Proof. destruct t; vm_compute; reflexivity. Qed.

Lemma cost_pair_medium n : 0 < n -> cost_pair n (factor_pair Medium) = int_pair n.
Proof.
  intros Hn. unfold cost_pair. change (factor_pair Medium) with one_pair.
  apply mul_pair_one, int_pair_normal, Hn.
Qed.

Lemma cost_pair_value n f :
  0 < n -> normal f ->
  approx eps (P2Q (int_pair n) * P2Q f) (P2Q (cost_pair n f)).
Proof.
  intros Hn Hf. apply mul_pair_value; [apply int_pair_normal |]; assumption.
Qed.

Lemma cost_pair_tiers n :
  0 < n ->
  plt (cost_pair n (factor_pair Low)) (cost_pair n (factor_pair Medium)) /\
  plt (cost_pair n (factor_pair Medium)) (cost_pair n (factor_pair High)).
Proof.
  intros Hn.
  pose proof (int_pair_normal n Hn) as Hi.
  pose proof (P2Q_pos _ Hi) as Hx.
  pose proof (cost_pair_value n _ Hn (factor_normal Low)) as [_ HL].
  pose proof (cost_pair_value n _ Hn (factor_normal High)) as [HH _].
  rewrite factor_value in HL, HH.
  eps_literal.
  rewrite (cost_pair_medium n Hn).
  split; apply P2Q_lt_plt;
    try assumption; try (apply cost_pair_normal; [assumption | apply factor_normal]); lra.
Qed.

(** ** The run over the tables *)



(** ** The return on a cost *)

Lemma approx_pos d x y : (0 <= d)%Q -> (d < 1)%Q -> (0 < x)%Q -> approx d x y -> (0 < y)%Q.
Proof.
  intros Hd Hd1 Hx [Hl _].
  assert ((0 < (1 - d) * x)%Q) by (apply Qmult_lt_0_compat; lra). lra.
Qed.

Lemma Qmake_100 a : (inject_Z a / inject_Z 100 == a # 100)%Q.
Proof. unfold Qeq, Qdiv, Qmult, Qinv, inject_Z. cbn. lia. Qed.

Lemma Qmake_100_ge a : 1 <= a -> (1 # 100 <= a # 100)%Q.
Proof. intros H. unfold Qle. cbn. lia. Qed.

Lemma Qmake_100_lt a : a < 2 ^ 500 -> ((a # 100) * 100 < pow2 500)%Q.
Proof.
  intros H. rewrite pow2_Z by lia.
  assert (E : ((a # 100) * 100 == inject_Z a)%Q).
  { unfold Qeq, Qmult, inject_Z. cbn. lia. }
  rewrite E. rewrite <- Zlt_Qlt. assumption.
Qed.

Lemma pow2_500_ge : (2 <= pow2 500)%Q.
Proof. change 2%Q with (pow2 1). apply pow2_le. lia. Qed.

Lemma pow2_double k : (pow2 (k + 1) == 2 * pow2 k)%Q.
Proof. apply pow2_succ. Qed.

Lemma ratio_pair_spec roi :
  1 <= roi < 2 ^ 500 ->
  normal (ratio_pair roi 100) /\
  approx (2 * eps) (roi # 100) (P2Q (ratio_pair roi 100)) /\
  int_truediv roi 100 = Ok (fin (ratio_pair roi 100)) /\
  -1074 <= snd (ratio_pair roi 100) <= 971.
Proof.
  intros [Hlo Hhi].
  destruct (ratio_mant_spec roi 100 ltac:(lia) ltac:(lia)) as (Hm & _).
  assert (Hn : normal (ratio_pair roi 100)) by (apply rpair_is_normal; lia).
  pose proof (ratio_value roi 100 ltac:(lia) ltac:(lia)) as Hv.
  unfold approx in Hv. rewrite Qmake_100 in Hv.
  pose proof (rpair_err (ratio_mant roi 100) (- ratio_shift roi 100 - 1) ltac:(lia)) as He.
  fold (ratio_pair roi 100) in He.
  set (q := P2Q (ratio_pair roi 100)) in *.
  set (x := F2Q (ratio_mant roi 100) (- ratio_shift roi 100 - 1)) in *.
  pose proof (Qmake_100_ge roi Hlo) as Hr1.
  pose proof (Qmake_100_lt roi Hhi) as Hr2.
  set (r := (roi # 100)%Q) in *.
  unfold approx in Hv.
  change (1 # 2 ^ 55)%Q with (1 # 36028797018963968)%Q in Hv.
  eps_literal.
  assert (Ha : approx (2 * eps) r q).
  { unfold approx. eps_literal. split; lra. }
  assert (Hs : -1074 <= snd (ratio_pair roi 100) <= 971).
  { unfold approx in Ha. eps_literal.
    assert (Hq1 : (pow2 (-7) <= P2Q (ratio_pair roi 100))%Q).
    { fold q. change (pow2 (-7)) with (1 # 128)%Q. lra. }
    assert (Hq2 : (P2Q (ratio_pair roi 100) < pow2 500)%Q) by (fold q; lra).
    apply normal_snd_gt in Hq1; [| assumption].
    apply normal_snd_lt in Hq2; [| assumption]. lia. }
  split; [exact Hn | split; [exact Ha | split; [| exact Hs]]].
  unfold int_truediv. cbn [Z.eqb Z.ltb Z.compare].
  rewrite ratio_fin; [| lia | lia | reflexivity].
  rewrite ovf_fin by lia. reflexivity.
Qed.

Lemma one_pair_normal : normal one_pair.
Proof. unfold normal, one_pair. cbn [fst]. lia. Qed.

Lemma one_pair_value : (P2Q one_pair == 1)%Q.
Proof. vm_compute. reflexivity. Qed.

Lemma int_to_float_1 : int_to_float 1 = Ok (fin one_pair).
Proof. reflexivity. Qed.

Lemma growth_pair_spec roi :
  1 <= roi < 2 ^ 500 ->
  normal (growth_pair roi) /\
  approx eps (1 + P2Q (ratio_pair roi 100)) (P2Q (growth_pair roi)) /\
  (p <- int_truediv roi 100 ;; int_add_float 1 p) = Ok (fin (growth_pair roi)) /\
  -53 <= snd (growth_pair roi) <= 971.
Proof.
  intros Hr.
  destruct (ratio_pair_spec roi Hr) as (Hqn & Hqa & Hqe & Hqs).
  destruct (add_pair_value one_pair (ratio_pair roi 100) one_pair_normal Hqn) as [Hgn Hga].
  fold (growth_pair roi) in Hgn, Hga.
  unfold approx in Hga. rewrite one_pair_value in Hga.
  pose proof (Qmake_100_ge roi ltac:(lia)) as Hr1.
  pose proof (Qmake_100_lt roi ltac:(lia)) as Hr2.
  pose proof pow2_500_ge as HT.
  assert (Hs : -53 <= snd (growth_pair roi) <= 971).
  { unfold approx in Hqa.
    eps_literal.
    assert (Hg1 : (pow2 0 <= P2Q (growth_pair roi))%Q).
    { change (pow2 0) with 1%Q. lra. }
    assert (Hg2 : (P2Q (growth_pair roi) < pow2 501)%Q).
    { rewrite (pow2_double 500). lra. }
    apply normal_snd_gt in Hg1; [| assumption].
    apply normal_snd_lt in Hg2; [| assumption]. lia. }
  split; [exact Hgn | split; [exact Hga | split; [| exact Hs]]].
  rewrite Hqe. cbn [bind]. unfold int_add_float. rewrite int_to_float_1. cbn [bind].
  rewrite add_fin; [| exact one_pair_normal | exact Hqn | cbn; lia | lia].
  fold (growth_pair roi). rewrite ovf_fin by lia. reflexivity.
Qed.

Lemma approx_scale d x y c : (0 < c)%Q -> approx d x y -> approx d (c * x) (c * y).
Proof.
  intros Hc [Hl Hu]. unfold approx.
  assert (H1 : (c * ((1 - d) * x) <= c * y)%Q) by (apply Qmult_le_l; assumption).
  assert (H2 : (c * y <= c * ((1 + d) * x))%Q) by (apply Qmult_le_l; assumption).
  split; lra.
Qed.

Lemma Qmult_lt_both a b c d :
  (0 < a)%Q -> (a < b)%Q -> (0 < c)%Q -> (c < d)%Q -> (a * c < b * d)%Q.
Proof.
  intros Ha Hab Hc Hcd.
  assert (H1 : (a * c < b * c)%Q) by (apply Qmult_lt_r; assumption).
  assert (H2 : (b * c < b * d)%Q) by (apply Qmult_lt_l; lra).
  lra.
Qed.

Lemma code_roi_pos c roi :
  normal c -> (1 <= P2Q c)%Q -> (P2Q c < pow2 502)%Q -> 1 <= roi < 2 ^ 500 ->
  code_roi (fin c) roi = Ok (fin (roi_pair c roi)) /\
  normal (roi_pair c roi) /\
  snd (roi_pair c roi) <= 971 /\
  approx (1 # 10 ^ 12) (P2Q c * (roi # 100)) (P2Q (roi_pair c roi)).
Proof.
  intros Hcn Hc1 Hc2 Hr.
  destruct (ratio_pair_spec roi Hr) as (Hqn & Hqa & Hqe & Hqs).
  destruct (growth_pair_spec roi Hr) as (Hgn & Hga & Hge & Hgs).
  rewrite Hqe in Hge. cbn [bind] in Hge.
  pose proof (Qmake_100_ge roi ltac:(lia)) as Hr1.
  pose proof (Qmake_100_lt roi ltac:(lia)) as Hr2.
  pose proof pow2_500_ge as HT.
  set (g := growth_pair roi) in *. set (q := ratio_pair roi 100) in *.
  destruct (mul_pair_value c g Hcn Hgn) as [Htn Hta].
  set (t := mul_pair c g) in *.
  assert (Hc0 : (0 < P2Q c)%Q) by lra.
  (* products with the cost *)
  pose proof (approx_scale _ _ _ (P2Q c) Hc0 Hqa) as Hcq.
  pose proof (approx_scale _ _ _ (P2Q c) Hc0 Hga) as Hcg.
  assert (Hcr : (P2Q c * (1 # 100) <= P2Q c * (roi # 100))%Q) by (apply Qmult_le_l; assumption).
  assert (Hg2 : (P2Q g < pow2 501)%Q).
  { unfold approx in Hqa, Hga. eps_literal.
    rewrite (pow2_double 500). lra. }
  assert (Hg0 : (0 < P2Q g)%Q) by (apply P2Q_pos; assumption).
  assert (Hcg2 : (P2Q c * P2Q g < pow2 1003)%Q).
  { change 1003 with (502 + 501). rewrite pow2_add. apply Qmult_lt_both; assumption. }
  unfold approx in Hqa, Hga, Hta, Hcq, Hcg.
  eps_literal.
  set (C := P2Q c) in *. set (R := (roi # 100)%Q) in *. set (Qv := P2Q q) in *.
  set (G := P2Q g) in *. set (T := P2Q t) in *.
  set (CR := (C * R)%Q) in *. set (CQ := (C * Qv)%Q) in *. set (CG := (C * G)%Q) in *.
  assert (Hcg' : ((1 - (1 # 9007199254740992)) * (C + CQ) <= CG /\
                  CG <= (1 + (1 # 9007199254740992)) * (C + CQ))%Q).
  { subst CG CQ. split; lra. }
  clear Hcg.
  assert (HtC : (C < T)%Q) by lra.
  assert (Hlt : plt c t) by (apply P2Q_lt_plt; assumption).
  assert (HT2 : (T < pow2 1004)%Q).
  { change 1004 with (1003 + 1). rewrite pow2_double. lra. }
  assert (Hsc : -53 < snd c < 450).
  { split.
    - apply (normal_snd_gt c 0); [assumption |]. change (pow2 0) with 1%Q. exact Hc1.
    - apply (normal_snd_lt c 502) in Hc2; [lia | assumption]. }
  assert (Hst : -53 < snd t < 952).
  { split.
    - apply (normal_snd_gt t 0); [assumption |]. change (pow2 0) with 1%Q. fold T. lra.
    - apply (normal_snd_lt t 1004) in HT2; [lia | assumption]. }
  destruct (sub_pair_value t c Htn Hcn Hlt) as [Hrn Hra].
  change (sub_pair t c) with (roi_pair c roi) in Hrn, Hra.
  unfold approx in Hra. eps_literal.
  fold T C in Hra.
  set (Rv := P2Q (roi_pair c roi)) in *.
  assert (Hsr : snd (roi_pair c roi) <= 971).
  { assert (HR2 : (P2Q (roi_pair c roi) < pow2 1005)%Q).
    { fold Rv. change 1005 with (1004 + 1). rewrite pow2_double.
      pose proof (pow2_pos 1004). lra. }
    apply normal_snd_lt in HR2; [lia | assumption]. }
  split; [| split; [exact Hrn | split; [exact Hsr |]]].
  - unfold code_roi. rewrite Hqe. cbn [bind]. rewrite Hge. cbn [bind].
    rewrite mul_fin; [| assumption | assumption | lia].
    fold (mul_pair c g). fold t. rewrite ovf_fin by lia.
    rewrite sub_fin_lt; [| assumption | assumption | lia | lia | assumption].
    change (sub_pair t c) with (roi_pair c roi). rewrite ovf_fin by lia. reflexivity.
  - unfold approx. change (1 # 10 ^ 12)%Q with (1 # 1000000000000)%Q. split; lra.
Qed.

Lemma code_roi_zero c :
  normal c -> -1021 <= snd c <= 971 -> code_roi (fin c) 0 = Ok (S754_zero false).
Proof.
  intros Hc Hs. unfold code_roi.
  change (int_truediv 0 100) with (Ok (S754_zero false)). cbn [bind].
  unfold int_add_float. rewrite int_to_float_1. cbn [bind].
  change (B64.add (fin one_pair) (S754_zero false)) with (fin one_pair).
  rewrite mul_fin; [| assumption | exact one_pair_normal | cbn; lia].
  fold (mul_pair c one_pair). rewrite mul_pair_one by assumption.
  rewrite ovf_fin by lia.
  rewrite sub_fin; [| assumption | assumption | lia | lia | unfold ple; lia].
  rewrite Z.sub_diag. reflexivity.
Qed.

Lemma fin_leb p q : normal p -> normal q -> ple p q -> B64.leb (fin p) (fin q) = true.
Proof.
  intros Hp Hq Hle. unfold fin, normal, ple in *.
  destruct p as [m1 e1], q as [m2 e2]; cbn [fst snd] in *.
  unfold B64.leb, SFleb, SFcompare.
  destruct (Z.compare_spec e1 e2) as [He | He | He]; try reflexivity; try lia.
  change (PosDef.Pos.compare_cont Eq (Z.to_pos m1) (Z.to_pos m2))
    with (Pos.compare (Z.to_pos m1) (Z.to_pos m2)).
  rewrite <- Z2Pos.inj_compare by lia.
  destruct (Z.compare_spec m1 m2); try reflexivity; lia.
Qed.

Lemma fin_ltb p q : normal p -> normal q -> plt p q -> B64.ltb (fin p) (fin q) = true.
Proof.
  intros Hp Hq Hlt. unfold fin, normal, plt in *.
  destruct p as [m1 e1], q as [m2 e2]; cbn [fst snd] in *.
  unfold B64.ltb, SFltb, SFcompare.
  destruct (Z.compare_spec e1 e2) as [He | He | He]; try reflexivity; try lia.
  change (PosDef.Pos.compare_cont Eq (Z.to_pos m1) (Z.to_pos m2))
    with (Pos.compare (Z.to_pos m1) (Z.to_pos m2)).
  rewrite <- Z2Pos.inj_compare by lia.
  destruct (Z.compare_spec m1 m2); try reflexivity; lia.
Qed.

(** *** Costs in range *)

Lemma cost_pair_range n t :
  30000 < n -> n < 2 ^ 500 ->
  (1 <= P2Q (cost_pair n (factor_pair t)))%Q /\
  (P2Q (cost_pair n (factor_pair t)) < pow2 502)%Q /\
  snd (int_pair n) <= 971 /\
  -53 < snd (cost_pair n (factor_pair t)) <= 971.
Proof.
  intros Hlo Hhi.
  assert (Hn : 0 < n) by lia.
  pose proof (int_pair_normal n Hn) as Hin.
  pose proof (cost_pair_normal n _ Hn (factor_normal t)) as Hcn.
  pose proof (int_pair_value n Hn) as Hiv.
  pose proof (cost_pair_value n _ Hn (factor_normal t)) as Hcv.
  unfold approx in Hiv, Hcv. rewrite factor_value in Hcv.
  eps_literal.
  assert (Hq1 : (30000 < inject_Z n)%Q).
  { change 30000%Q with (inject_Z 30000). rewrite <- Zlt_Qlt. assumption. }
  assert (Hq2 : (inject_Z n < pow2 500)%Q).
  { rewrite pow2_Z by lia. rewrite <- Zlt_Qlt. assumption. }
  set (X := P2Q (int_pair n)) in *. set (N := inject_Z n) in *.
  set (Cv := P2Q (cost_pair n (factor_pair t))) in *.
  assert (H1 : (1 <= Cv)%Q) by (destruct t; lra).
  assert (H2 : (Cv < pow2 502)%Q).
  { change 502 with (500 + 1 + 1). rewrite !pow2_double. destruct t; lra. }
  assert (H3 : (X < pow2 501)%Q).
  { change 501 with (500 + 1). rewrite pow2_double. lra. }
  split; [exact H1 | split; [exact H2 | split]].
  - apply normal_snd_lt in H3; [fold (int_pair n) | assumption]. lia.
  - split.
    + apply (normal_snd_gt _ 0); [assumption |]. exact H1.
    + apply normal_snd_lt in H2; [lia | assumption].
Qed.

(** *** The two stacks on the same input *)

Section Stacks.

Variables (u m : Z) (t : ComplexityTier).
Hypotheses (Hu : 0 < u) (Hm : 0 < m).

Local Abbreviation na := (u * 100 * m + 50000).
Local Abbreviation nb := (u * 40 * m + 30000).

Lemma stacks_bases : 30000 < nb /\ nb < na /\ 3 * nb <= 2 * na.
Proof.
  assert (0 < u * m) by (apply Z.mul_pos_pos; assumption). lia.
Qed.

Lemma stacks_bases_Q : (0 < inject_Z nb /\ 3 * inject_Z nb <= 2 * inject_Z na)%Q.
Proof.
  destruct stacks_bases as (H1 & _ & H3). split.
  - change 0%Q with (inject_Z 0). rewrite <- Zlt_Qlt. lia.
  - change 3%Q with (inject_Z 3). change 2%Q with (inject_Z 2).
    rewrite <- !inject_Z_mult, <- Zle_Qle. assumption.
Qed.

(** The traditional stack costs at least 1.4 times the low-code stack. *)
Lemma cost_pair_stacks :
  (14 * P2Q (cost_pair nb (factor_pair t)) <= 10 * P2Q (cost_pair na (factor_pair t)))%Q.
Proof.
  destruct stacks_bases as (HB & HA & _). destruct stacks_bases_Q as [Hq0 Hq].
  pose proof (int_pair_value na ltac:(lia)) as Hia.
  pose proof (int_pair_value nb ltac:(lia)) as Hib.
  pose proof (cost_pair_value na _ ltac:(lia) (factor_normal t)) as Hca.
  pose proof (cost_pair_value nb _ ltac:(lia) (factor_normal t)) as Hcb.
  unfold approx in *. rewrite factor_value in Hca, Hcb.
  eps_literal.
  destruct t; lra.
Qed.

(** When the conversion of the larger base succeeds, the smaller cost is
    finite. *)
Lemma cost_pair_B_finite :
  snd (int_pair na) <= 971 -> snd (cost_pair nb (factor_pair t)) <= 971.
Proof.
  intros Hfin.
  destruct stacks_bases as (HB & HA & _). destruct stacks_bases_Q as [Hq0 Hq].
  pose proof (int_pair_value na ltac:(lia)) as Hia.
  pose proof (int_pair_value nb ltac:(lia)) as Hib.
  pose proof (cost_pair_value nb _ ltac:(lia) (factor_normal t)) as Hcb.
  pose proof (normal_P2Q_lt _ (int_pair_normal na ltac:(lia)) Hfin) as Hlt.
  pose proof (cost_pair_normal nb _ ltac:(lia) (factor_normal t)) as Hn.
  unfold approx in *. rewrite factor_value in Hcb.
  eps_literal.
  assert (Hc : (P2Q (cost_pair nb (factor_pair t)) < pow2 1024)%Q) by (destruct t; lra).
  apply normal_snd_lt in Hc; [lia | assumption].
Qed.

End Stacks.

(** *** The whole call, for inputs far from overflow *)

Lemma code_roi_float c roi :
  normal c -> (1 <= P2Q c)%Q -> (P2Q c < pow2 502)%Q -> -53 < snd c <= 971 ->
  0 <= roi < 2 ^ 500 ->
  code_roi (fin c) roi = Ok (roi_float c roi).
Proof.
  intros Hc H1 H2 Hs Hr. unfold roi_float.
  destruct (Z.eqb_spec roi 0) as [-> | Hne].
  - apply code_roi_zero; [assumption | lia].
  - apply code_roi_pos; [assumption .. | lia].
Qed.

Lemma calculate_in_range t u m roi :
  0 < u -> 0 < m -> u * 100 * m + 50000 < 2 ^ 500 -> 0 <= roi < 2 ^ 500 ->
  calculate_costs_and_roi u m (tier_name t) roi =
  Ok (mkEstimate
        (fin (cost_pair (u * 100 * m + 50000) (factor_pair t)))
        (fin (cost_pair (u * 40 * m + 30000) (factor_pair t)))
        (roi_float (cost_pair (u * 100 * m + 50000) (factor_pair t)) roi)
        (roi_float (cost_pair (u * 40 * m + 30000) (factor_pair t)) roi)).
Proof.
  intros Hu Hm Hb Hr.
  pose proof (baseA_pos u m Hu Hm) as HA. pose proof (baseB_pos u m Hu Hm) as HB.
  assert (Hab : u * 40 * m + 30000 < u * 100 * m + 50000).
  { assert (0 < u * m) by (apply Z.mul_pos_pos; assumption). lia. }
  destruct (cost_pair_range (u * 100 * m + 50000) t ltac:(lia) Hb) as (Ha1 & Ha2 & Ha3 & Ha4).
  destruct (cost_pair_range (u * 40 * m + 30000) t ltac:(lia) ltac:(lia)) as (Hb1 & Hb2 & Hb3 & Hb4).
  rewrite calculate_costs_and_roi_eq. unfold spec_costA, spec_costB.
  rewrite factor_fin.
  rewrite !int_mul_float_pos;
    try lia; try apply factor_normal; try (pose proof (factor_snd t); lia).
  destruct (Z.leb_spec (snd (int_pair (u * 100 * m + 50000))) 971); [| lia].
  destruct (Z.leb_spec (snd (int_pair (u * 40 * m + 30000))) 971); [| lia].
  cbn [bind]. rewrite !ovf_fin by lia.
  rewrite !code_roi_float;
    try assumption; try (apply cost_pair_normal; [lia | apply factor_normal]).
  reflexivity.
Qed.

Lemma roi_float_value c roi :
  normal c -> (1 <= P2Q c)%Q -> (P2Q c < pow2 502)%Q -> 0 <= roi < 2 ^ 500 ->
  approx (1 # 10 ^ 12) (P2Q c * (roi # 100)) (B64.to_Q (roi_float c roi)).
Proof.
  intros Hc H1 H2 Hr. unfold roi_float.
  destruct (Z.eqb_spec roi 0) as [-> | Hne].
  - unfold approx, B64.to_Q. cbn [Z.eqb].
    assert (E : (0 # 100 == 0)%Q) by reflexivity.
    rewrite E. split; lra.
  - destruct (code_roi_pos c roi Hc H1 H2 ltac:(lia)) as (_ & Hn & _ & Ha).
    unfold approx in *. rewrite to_Q_fin by assumption. exact Ha.
Qed.

(** *** No failure on integers of either sign *)

Lemma Zdigits2_le n k : 0 <= k -> 0 < n < 2 ^ k -> Zdigits2 n <= k.
Proof.
  intros Hk [Hn Hlt]. pose proof (Zdigits2_bounds n Hn) as [Hl _].
  destruct (Z.le_gt_cases (Zdigits2 n) k) as [|Hgt]; [assumption | exfalso].
  assert (2 ^ k <= 2 ^ (Zdigits2 n - 1)) by (apply Z.pow_le_mono_r; lia). lia.
Qed.

Lemma Zdigits2_opp n : Zdigits2 (- n) = Zdigits2 n.
Proof. destruct n; reflexivity. Qed.








(** *** The sliders *)

Lemma ui_input_in_range users months roi complexity :
  ui_input users months roi complexity ->
  0 < users /\ 0 < months /\ users * 100 * months + 50000 < 2 ^ 500 /\
  0 <= roi < 2 ^ 500 /\ exists t, complexity = tier_name t.
Proof.
  intros [[Hu1 Hu2] [Hm1 Hm2] [Hr1 Hr2] Hc].
  assert (Hum : users * months <= 1000 * 36) by (apply Z.mul_le_mono_nonneg; lia).
  assert (Hbig : 2 ^ 22 <= 2 ^ 500) by (apply Z.pow_le_mono_r; lia).
  change (2 ^ 22) with 4194304 in Hbig.
  repeat split; try lia.
  apply tier_of_name, Hc.
Qed.

(** On the slider range the true division of the model is the binary64
    division of the two converted operands. *)
Lemma int_truediv_slider roi :
  0 <= roi <= 200 ->
  int_truediv roi 100 = Ok (B64.div (B64.round roi 0) (B64.round 100 0)).
Proof.
  intros Hr.
  assert (Hall : forallb (fun k =>
            match int_truediv (Z.of_nat k) 100 with
            | Ok x =>
                match x, B64.div (B64.round (Z.of_nat k) 0) (B64.round 100 0) with
                | S754_zero a, S754_zero b => Bool.eqb a b
                | S754_finite a m e, S754_finite b m' e' =>
                    Bool.eqb a b && Pos.eqb m m' && Z.eqb e e'
                | _, _ => false
                end
            | Raise _ => false
            end) (seq 0 201) = true) by (vm_compute; reflexivity).
  rewrite forallb_forall in Hall.
  specialize (Hall (Z.to_nat roi)).
  rewrite Z2Nat.id in Hall by lia.
  assert (Hin : In (Z.to_nat roi) (seq 0 201)) by (apply in_seq; lia).
  specialize (Hall Hin).
  destruct (int_truediv roi 100) as [x |]; [| discriminate].
  destruct x as [a | | | a mx ex];
    destruct (B64.div (B64.round roi 0) (B64.round 100 0)) as [b | | | b my ey];
    try discriminate.
  - apply Bool.eqb_prop in Hall. subst. reflexivity.
  - apply andb_prop in Hall as [Hall He]. apply andb_prop in Hall as [Hs Hm].
    apply Bool.eqb_prop in Hs. apply Pos.eqb_eq in Hm. apply Z.eqb_eq in He.
    subst. reflexivity.
Qed.

(** *** The simplified product of the specification *)

Lemma spec_roi_float_eq c roi :
  normal c -> (1 <= P2Q c)%Q -> (P2Q c < pow2 502)%Q -> -53 < snd c <= 971 ->
  0 <= roi < 2 ^ 500 ->
  spec_roi (fin c) roi = Ok (spec_roi_float c roi) /\
  approx (1 # 10 ^ 12) (P2Q c * (roi # 100)) (B64.to_Q (spec_roi_float c roi)).
Proof.
  intros Hc H1 H2 Hs Hr. unfold spec_roi_float, spec_roi.
  destruct (Z.eqb_spec roi 0) as [-> | Hne].
  - split; [reflexivity |].
    unfold approx, B64.to_Q.
    assert (E : (0 # 100 == 0)%Q) by reflexivity.
    rewrite E. split; lra.
  - destruct (ratio_pair_spec roi ltac:(lia)) as (Hqn & Hqa & Hqe & Hqs).
    destruct (mul_pair_value c _ Hc Hqn) as [Hmn Hma].
    pose proof (Qmake_100_ge roi ltac:(lia)) as Hr1.
    pose proof (Qmake_100_lt roi ltac:(lia)) as Hr2.
    assert (Hc0 : (0 < P2Q c)%Q) by lra.
    pose proof (approx_scale _ _ _ (P2Q c) Hc0 Hqa) as Hcq.
    assert (Hq0 : (0 < P2Q (ratio_pair roi 100))%Q) by (apply P2Q_pos; assumption).
    unfold approx in Hqa, Hma, Hcq.
    eps_literal.
    assert (Hq2 : (P2Q (ratio_pair roi 100) < pow2 500)%Q) by lra.
    assert (Hcq2 : (P2Q c * P2Q (ratio_pair roi 100) < pow2 1002)%Q).
    { change 1002 with (502 + 500). rewrite pow2_add. apply Qmult_lt_both; assumption. }
    assert (Hm2 : (P2Q (mul_pair c (ratio_pair roi 100)) < pow2 1003)%Q).
    { change 1003 with (1002 + 1). rewrite pow2_double.
      pose proof (pow2_pos 1002). lra. }
    apply normal_snd_lt in Hm2; [| assumption].
    split.
    + rewrite Hqe. cbn [bind].
      rewrite mul_fin; [| assumption | assumption | lia].
      fold (mul_pair c (ratio_pair roi 100)). rewrite ovf_fin by lia. reflexivity.
    + unfold approx. rewrite to_Q_fin by assumption.
      change (1 # 10 ^ 12)%Q with (1 # 1000000000000)%Q. split; lra.
Qed.

Lemma approx_rel_close (x y z : Q) :
  (0 <= x)%Q -> approx (1 # 10 ^ 12) x y -> approx (1 # 10 ^ 12) x z ->
  rel_close (1 # 10 ^ 9) x y /\ rel_close (1 # 10 ^ 9) z y.
Proof.
  intros Hx [Hl Hu] [Hl' Hu'].
  change (1 # 10 ^ 12)%Q with (1 # 1000000000000)%Q in *.
  assert (Hz : (0 <= z)%Q) by lra.
  unfold rel_close. rewrite (Qabs_pos x), (Qabs_pos z) by assumption.
  change (1 # 10 ^ 9)%Q with (1 # 1000000000)%Q.
  split; apply Qabs_Qle_condition; split; lra.
Qed.

(** ** The costs carry no rounding error

    The bases are multiples of ten, so base * 0.8 and base * 1.3 are
    integers; the product of the converted base with the rounded factor
    lies within half an ulp of that integer, and rounds to it. *)

Lemma rne_near m n c : 0 <= n -> 2 * Z.abs (m - c * 2 ^ n) < 2 ^ n -> rne m n = c.
Proof.
  intros Hn Hc. destruct (rne_cases m n Hn) as (Hm & Hr & Hcases).
  assert (Hp : 0 < 2 ^ n) by (apply Z.pow_pos_nonneg; lia).
  set (q := m / 2 ^ n) in *. set (r := m mod 2 ^ n) in *. set (P := 2 ^ n) in *.
  destruct (Z.lt_trichotomy q c) as [Hlt | [Heq | Hgt]].
  - assert (q + 1 <= c) by lia.
    assert (Hd : (q + 1) * P <= c * P) by (apply Z.mul_le_mono_nonneg_r; lia).
    destruct Hcases as [[? ->] | [(? & -> & ?) | [(? & -> & ?) | [? ->]]]]; nia.
  - destruct Hcases as [[? ->] | [(? & -> & ?) | [(? & -> & ?) | [? ->]]]]; nia.
  - assert (c + 1 <= q) by lia.
    assert (Hd : (c + 1) * P <= q * P) by (apply Z.mul_le_mono_nonneg_r; lia).
    destruct Hcases as [[? ->] | [(? & -> & ?) | [(? & -> & ?) | [? ->]]]]; nia.
Qed.

Lemma rpair_of_mant c e : 2 ^ 52 <= c <= 2 ^ 53 -> rpair c e = if c =? 2 ^ 53 then (2 ^ 52, e + 1) else (c, e).
Proof.
  intros Hc. destruct (Z.eqb_spec c (2 ^ 53)) as [-> | Hne].
  - replace e with ((e + 1) - 1) at 1 by lia.
    change (2 ^ 53) with (2 ^ 52 * 2 ^ 1).
    rewrite rpair_shift by lia. apply rpair_exact. lia.
  - apply rpair_exact. lia.
Qed.

Lemma rpair_near m e c :
  0 < m -> 53 < Zdigits2 m ->
  2 * Z.abs (m - c * 2 ^ (Zdigits2 m - 53)) < 2 ^ (Zdigits2 m - 53) ->
  rpair m e = rpair c (Zdigits2 m + e - 53).
Proof.
  intros Hm Hd Hc.
  pose proof (rmant_bounds m Hm) as Hb.
  assert (Hr : rmant m = c).
  { unfold rmant. destruct (Z.leb_spec (Zdigits2 m) 53); [lia |].
    apply rne_near; [lia | assumption]. }
  rewrite (rpair_of_mant c) by lia.
  unfold rpair. rewrite Hr. reflexivity.
Qed.

Lemma int_pair_small n : 0 < n < 2 ^ 53 -> (P2Q (int_pair n) == inject_Z n)%Q.
Proof.
  intros [Hn Hlt]. unfold int_pair. rewrite rpair_value by assumption.
  pose proof (Zdigits2_le n 53 ltac:(lia) ltac:(lia)) as Hd.
  unfold rmant. destruct (Z.leb_spec (Zdigits2 n) 53); [| lia].
  replace (Zdigits2 n + 0 - 53) with (0 - (53 - Zdigits2 n)) by lia.
  rewrite F2Q_shift by lia. apply F2Q_0.
Qed.

Lemma int_pair_small_eq n :
  0 < n < 2 ^ 53 -> int_pair n = (n * 2 ^ (53 - Zdigits2 n), Zdigits2 n - 53).
Proof.
  intros [Hn Hlt]. unfold int_pair.
  pose proof (Zdigits2_le n 53 ltac:(lia) ltac:(lia)) as Hd.
  pose proof (Zdigits2_pos n Hn) as Hd0.
  rewrite <- (rpair_shift n 0 (53 - Zdigits2 n)) by lia.
  rewrite rpair_exact; [f_equal; lia |].
  assert (Hp : 0 < 2 ^ (53 - Zdigits2 n)) by (apply Z.pow_pos_nonneg; lia).
  pose proof (Zdigits2_bounds (n * 2 ^ (53 - Zdigits2 n)) ltac:(nia)) as Hbd.
  rewrite Zdigits2_shift in Hbd by lia.
  replace (Zdigits2 n + (53 - Zdigits2 n)) with 53 in Hbd by lia.
  exact Hbd.
Qed.

Lemma cost_pair_small n f :
  0 < n < 2 ^ 53 -> normal f -> cost_pair n f = rpair (n * fst f) (snd f).
Proof.
  intros Hn Hf. unfold cost_pair, mul_pair.
  rewrite (int_pair_small_eq n Hn). cbn [fst snd].
  pose proof (Zdigits2_le n 53 ltac:(lia) ltac:(lia)) as Hd.
  pose proof (normal_pos f Hf) as Hf0.
  replace (n * 2 ^ (53 - Zdigits2 n) * fst f) with (n * fst f * 2 ^ (53 - Zdigits2 n)) by ring.
  replace (Zdigits2 n - 53 + snd f) with (snd f - (53 - Zdigits2 n)) by lia.
  apply rpair_shift; [nia | lia].
Qed.

Lemma factor_times_ten t :
  10 * fst (factor_pair t) =
  tier_tenths t * 2 ^ (- snd (factor_pair t)) +
  match t with Low => 4 | Medium => 0 | High => 2 end.
Proof. destruct t; reflexivity. Qed.

Lemma cost_pair_exact j t :
  0 < j -> 10 * j < 2 ^ 52 ->
  cost_pair (10 * j) (factor_pair t) = int_pair (tier_tenths t * j).
Proof.
  intros Hj Hlt.
  pose proof (factor_normal t) as Hf. pose proof (factor_snd t) as Hs.
  rewrite cost_pair_small; [| change (2 ^ 53) with (2 * 2 ^ 52); lia | assumption].
  set (mf := fst (factor_pair t)) in *. set (ef := snd (factor_pair t)) in *.
  set (k := tier_tenths t). set (M := 10 * j * mf).
  assert (HM : M = k * j * 2 ^ (- ef) + match t with Low => 4 | Medium => 0 | High => 2 end * j).
  { subst M. replace (10 * j * mf) with (j * (10 * mf)) by ring.
    subst mf ef k. rewrite factor_times_ten. ring. }
  assert (Hk : 8 <= k <= 13) by (subst k; destruct t; cbn; lia).
  unfold normal in Hf. fold mf in Hf.
  assert (HM0 : 2 ^ 52 < M) by (subst M; nia).
  assert (HM1 : M < 2 ^ 105).
  { change (2 ^ 105) with (2 ^ 52 * 2 ^ 53). subst M. nia. }
  pose proof (Zdigits2_ge M 52 ltac:(lia) ltac:(lia)) as Hd1.
  pose proof (Zdigits2_le M 105 ltac:(lia) ltac:(lia)) as Hd2.
  pose proof (Zdigits2_bounds M ltac:(lia)) as [_ Hub].
  set (D := Zdigits2 M) in *.
  assert (HD : 2 ^ D = 2 ^ (D - 53) * 2 ^ 53).
  { rewrite <- Z.pow_add_r by lia. f_equal. lia. }
  assert (Hpn : 0 < 2 ^ (D - 53)) by (apply Z.pow_pos_nonneg; lia).
  assert (Hsplit : 2 ^ (- ef) = 2 ^ (- ef - (D - 53)) * 2 ^ (D - 53)).
  { rewrite <- Z.pow_add_r by lia. f_equal. lia. }
  assert (Hnear : 2 * Z.abs (M - k * j * 2 ^ (- ef - (D - 53)) * 2 ^ (D - 53)) < 2 ^ (D - 53)).
  { rewrite <- Z.mul_assoc, <- Hsplit.
    rewrite HD in Hub. clear HD Hsplit.
    change (2 ^ 53) with 9007199254740992 in *.
    destruct t; cbn [tier_tenths] in *; subst k ef; cbn [factor_pair snd Z.opp] in *;
      change (2 ^ 53) with 9007199254740992 in *;
      change (2 ^ 52) with 4503599627370496 in *; lia. }
  destruct (Z.eq_dec D 53) as [E53 | NE53].
  { exfalso. rewrite E53 in Hub. change (2 ^ 53) with (2 * 2 ^ 52) in Hub. subst M. nia. }
  rewrite (rpair_near M ef (k * j * 2 ^ (- ef - (D - 53)))); [| lia | fold D; lia | fold D; exact Hnear].
  fold D. unfold int_pair.
  rewrite <- (rpair_shift (k * j) 0 (- ef - (D - 53))) by (try nia; lia).
  f_equal. lia.
Qed.

(** ** Rounding to cents *)

Lemma F2Q_int c n : 0 <= n -> (F2Q (c * 2 ^ n) (- n) == inject_Z c)%Q.
Proof.
  intros Hn. replace (- n) with (0 - n) by lia.
  rewrite F2Q_shift by assumption. apply F2Q_0.
Qed.

Lemma F2Q_scale k m e : (inject_Z k * F2Q m e == F2Q (k * m) e)%Q.
Proof. unfold F2Q. rewrite inject_Z_mult. ring. Qed.

Lemma scaled_round_fin p c scale :
  normal p ->
  (2 * (inject_Z scale * P2Q p - inject_Z c) < 1)%Q ->
  (2 * (inject_Z c - inject_Z scale * P2Q p) < 1)%Q ->
  scaled_round (fin p) scale = c.
Proof.
  intros Hp H1 H2. unfold scaled_round, fin.
  rewrite Z2Pos.id by (apply normal_pos; assumption).
  unfold P2Q in H1, H2. rewrite F2Q_scale in H1, H2.
  destruct (Z.leb_spec 0 (snd p)) as [He | He].
  - assert (E : (F2Q (scale * fst p) (snd p) == inject_Z (fst p * 2 ^ snd p * scale))%Q).
    { unfold F2Q. rewrite pow2_Z by assumption. rewrite <- inject_Z_mult.
      replace (fst p * 2 ^ snd p * scale) with (scale * fst p * 2 ^ snd p) by ring.
      reflexivity. }
    rewrite E in H1, H2.
    set (X := fst p * 2 ^ snd p * scale) in *.
    assert (H1' : (inject_Z (2 * (X - c)) < inject_Z 1)%Q).
    { rewrite inject_Z_mult. unfold Z.sub. rewrite inject_Z_plus, inject_Z_opp.
      change (inject_Z 2) with 2%Q. change (inject_Z 1) with 1%Q. lra. }
    assert (H2' : (inject_Z (2 * (c - X)) < inject_Z 1)%Q).
    { rewrite inject_Z_mult. unfold Z.sub. rewrite inject_Z_plus, inject_Z_opp.
      change (inject_Z 2) with 2%Q. change (inject_Z 1) with 1%Q. lra. }
    rewrite <- Zlt_Qlt in H1', H2'. lia.
  - set (n := - snd p). assert (Hn : 0 < n) by (subst n; lia).
    assert (Ec : (inject_Z c == F2Q (c * 2 ^ n) (snd p))%Q).
    { replace (snd p) with (- n) by (subst n; lia). symmetry. apply F2Q_int. lia. }
    assert (E1 : (1 == F2Q (2 ^ n) (snd p))%Q).
    { replace (snd p) with (- n) by (subst n; lia).
      rewrite <- (Z.mul_1_l (2 ^ n)). symmetry. apply (F2Q_int 1). lia. }
    rewrite Ec in H1, H2. rewrite F2Q_sub in H1, H2.
    change 2%Q with (inject_Z 2) in H1, H2. rewrite F2Q_scale in H1, H2.
    rewrite E1 in H1, H2. apply F2Q_lt in H1, H2.
    apply rne_near; [lia |].
    replace (fst p * scale) with (scale * fst p) by ring. lia.
Qed.

Lemma scaled_round_int k scale :
  0 < k < 2 ^ 53 -> scaled_round (fin (int_pair k)) scale = scale * k.
Proof.
  intros Hk. apply scaled_round_fin.
  - apply int_pair_normal. lia.
  - rewrite int_pair_small by assumption. rewrite inject_Z_mult. lra.
  - rewrite int_pair_small by assumption. rewrite inject_Z_mult. lra.
Qed.

(** ** The estimate with exact costs *)

Lemma exact_cost_bounds t u m :
  0 < u -> 0 < m -> u * 100 * m + 50000 < 2 ^ 52 ->
  0 < exact_costB t u m /\ exact_costB t u m < exact_costA t u m /\
  exact_costA t u m < 2 ^ 53.
Proof.
  intros Hu Hm Hb. unfold exact_costA, exact_costB.
  assert (0 < u * m) by (apply Z.mul_pos_pos; assumption).
  change (2 ^ 52) with 4503599627370496 in Hb.
  change (2 ^ 53) with 9007199254740992.
  destruct t; cbn [tier_tenths]; lia.
Qed.

Lemma cost_pair_exactA t u m :
  0 < u -> 0 < m -> u * 100 * m + 50000 < 2 ^ 52 ->
  cost_pair (u * 100 * m + 50000) (factor_pair t) = int_pair (exact_costA t u m).
Proof.
  intros Hu Hm Hb. assert (0 < u * m) by (apply Z.mul_pos_pos; assumption).
  replace (u * 100 * m + 50000) with (10 * (u * 10 * m + 5000)) in * by ring.
  apply cost_pair_exact; lia.
Qed.

Lemma cost_pair_exactB t u m :
  0 < u -> 0 < m -> u * 100 * m + 50000 < 2 ^ 52 ->
  cost_pair (u * 40 * m + 30000) (factor_pair t) = int_pair (exact_costB t u m).
Proof.
  intros Hu Hm Hb. assert (0 < u * m) by (apply Z.mul_pos_pos; assumption).
  replace (u * 40 * m + 30000) with (10 * (u * 4 * m + 3000)) by ring.
  apply cost_pair_exact; lia.
Qed.

Lemma pow2_52_500 : 2 ^ 52 < 2 ^ 500.
Proof. apply Z.pow_lt_mono_r; lia. Qed.

Lemma calculate_exact t u m roi :
  0 < u -> 0 < m -> u * 100 * m + 50000 < 2 ^ 52 -> 0 <= roi < 2 ^ 500 ->
  calculate_costs_and_roi u m (tier_name t) roi =
  Ok (mkEstimate
        (fin (int_pair (exact_costA t u m)))
        (fin (int_pair (exact_costB t u m)))
        (roi_float (int_pair (exact_costA t u m)) roi)
        (roi_float (int_pair (exact_costB t u m)) roi)).
Proof.
  intros Hu Hm Hb Hr. pose proof pow2_52_500.
  rewrite calculate_in_range by (try assumption; lia).
  rewrite cost_pair_exactA, cost_pair_exactB by assumption.
  reflexivity.
Qed.

Lemma int_pair_range k :
  0 < k < 2 ^ 53 ->
  normal (int_pair k) /\ (1 <= P2Q (int_pair k))%Q /\ (P2Q (int_pair k) < pow2 502)%Q.
Proof.
  intros Hk. split; [apply int_pair_normal; lia |].
  rewrite int_pair_small by assumption.
  assert (H1 : (inject_Z 1 <= inject_Z k)%Q) by (rewrite <- Zle_Qle; lia).
  assert (H2 : (inject_Z k < inject_Z (2 ^ 53))%Q) by (rewrite <- Zlt_Qlt; lia).
  rewrite <- pow2_Z in H2 by lia.
  assert (H3 : (pow2 53 <= pow2 502)%Q) by (apply pow2_le; lia).
  change (inject_Z 1) with 1%Q in H1. split; lra.
Qed.

(** The return on an integer cost [k] rounds to [k * roi] cents. *)
Lemma roi_float_cents k roi :
  0 < k < 2 ^ 53 -> 0 <= roi -> k * roi <= 10 ^ 11 ->
  money (roi_float (int_pair k) roi) = ("$" ++ fixed_text false 2 (k * roi))%string.
Proof.
  intros Hk Hr Hkr. unfold roi_float.
  destruct (Z.eqb_spec roi 0) as [-> | Hne].
  - rewrite Z.mul_0_r. reflexivity.
  - destruct (int_pair_range k Hk) as (Hn & H1 & H2).
    assert (Hroi : roi < 2 ^ 500).
    { assert (roi <= 10 ^ 11) by nia.
      assert (10 ^ 11 < 2 ^ 37) by reflexivity.
      assert (2 ^ 37 < 2 ^ 500) by (apply Z.pow_lt_mono_r; lia). lia. }
    destruct (code_roi_pos _ roi Hn H1 H2 ltac:(lia)) as (_ & Hrn & _ & [Hlo Hhi]).
    unfold money, format_f, fin at 1. cbn [sign_bit].
    fold (fin (roi_pair (int_pair k) roi)).
    change (10 ^ Z.of_nat 2) with 100.
    f_equal. f_equal.
    rewrite int_pair_small in Hlo, Hhi by assumption.
    assert (HY : (100 * (inject_Z k * (roi # 100)) == inject_Z (k * roi))%Q).
    { unfold Qeq, Qmult, inject_Z. cbn [Qnum Qden].
      rewrite !Pos.mul_1_l. change (Z.pos 1) with 1. change (Z.pos (1 * 100)) with 100. ring. }
    assert (HYb : (inject_Z (k * roi) <= inject_Z (10 ^ 11))%Q) by (rewrite <- Zle_Qle; assumption).
    assert (HY0 : (0 <= inject_Z (k * roi))%Q).
    { change 0%Q with (inject_Z 0). rewrite <- Zle_Qle. nia. }
    change (inject_Z (10 ^ 11)) with 100000000000%Q in HYb.
    change (1 # 10 ^ 12)%Q with (1 # 1000000000000)%Q in Hlo, Hhi.
    change (inject_Z 100) with 100%Q.
    set (X := (inject_Z k * (roi # 100))%Q) in *.
    set (Y := inject_Z (k * roi)) in *.
    set (R := P2Q (roi_pair (int_pair k) roi)) in *.
    apply scaled_round_fin; [assumption | |]; change (inject_Z 100) with 100%Q; fold R; fold Y; clearbody X R Y; lra.
Qed.

Lemma money_int_pair k :
  0 < k < 2 ^ 53 ->
  money (fin (int_pair k)) = ("$" ++ fixed_text false 2 (100 * k))%string.
Proof.
  intros Hk. unfold money, format_f, fin at 1. cbn [sign_bit].
  fold (fin (int_pair k)). change (10 ^ Z.of_nat 2) with 100.
  rewrite scaled_round_int by assumption. reflexivity.
Qed.

(** ** Further facts about the estimator *)

Lemma int_pair_small_snd k : 0 < k < 2 ^ 53 -> snd (int_pair k) <= 971.
Proof.
  intros Hk. rewrite int_pair_small_eq by assumption. cbn [snd].
  pose proof (Zdigits2_le k 53 ltac:(lia) ltac:(lia)). lia.
Qed.

Lemma int_to_float_small k : 0 < k < 2 ^ 53 -> int_to_float k = Ok (fin (int_pair k)).
Proof.
  intros Hk. rewrite int_to_float_pos by lia. fold (int_pair k).
  pose proof (int_pair_small_snd k Hk).
  destruct (Z.leb_spec (snd (int_pair k)) 971); [reflexivity | lia].
Qed.

Lemma to_Q_int_pair k : 0 < k < 2 ^ 53 -> (B64.to_Q (fin (int_pair k)) == inject_Z k)%Q.
Proof.
  intros Hk. rewrite to_Q_fin by (apply int_pair_normal; lia).
  apply int_pair_small. assumption.
Qed.

Lemma fixed_text_whole k :
  0 <= k -> fixed_text false 2 (100 * k) = (commas (decimal k) ++ ".00")%string.
Proof.
  intros Hk. unfold fixed_text. change (10 ^ Z.of_nat 2) with 100.
  rewrite (Z.mul_comm 100 k), Z.div_mul, Z.mod_mul by lia.
  reflexivity.
Qed.

(** At 100 percent the growth factor is 2 and the return is the cost. *)
Lemma growth_pair_100 : growth_pair 100 = (2 ^ 52, -51).
Proof. vm_compute. reflexivity. Qed.

Lemma roi_pair_100 c : normal c -> roi_pair c 100 = c.
Proof.
  intros Hc. pose proof (normal_pos c Hc) as Hp. unfold normal in Hc.
  unfold roi_pair. rewrite growth_pair_100. unfold mul_pair. cbn [fst snd].
  replace (snd c + -51) with ((snd c + 1) - 52) by lia.
  rewrite rpair_shift by lia. rewrite rpair_exact by assumption.
  unfold sub_pair, aligned. cbn [fst snd].
  rewrite Z.min_r by lia.
  replace (snd c + 1 - snd c) with 1 by lia.
  replace (snd c - snd c) with 0 by lia.
  replace (fst c * 2 ^ 1 - fst c * 2 ^ 0) with (fst c) by (cbn; lia).
  rewrite rpair_exact by assumption. destruct c; reflexivity.
Qed.


Lemma getitem_in {V : Type} (d : dict V) k v : getitem d k = Ok v -> In (k, v) d.
Proof.
  induction d as [| [k' v'] d IH]; cbn [getitem]; [discriminate |].
  destruct (String.eqb_spec k' k) as [-> | _].
  - intros H. injection H as <-. left. reflexivity.
  - intros H. right. apply IH. exact H.
Qed.





(** ** Amounts of whole dollars *)

Lemma scaled_round_sign s m e scale :
  scaled_round (S754_finite s m e) scale = scaled_round (S754_finite false m e) scale.
Proof. reflexivity. Qed.

Lemma int_to_float_neg k :
  0 < k < 2 ^ 53 ->
  int_to_float (- k) =
  Ok (S754_finite true (Z.to_pos (fst (int_pair k))) (snd (int_pair k))).
Proof.
  intros Hk. unfold int_to_float.
  rewrite round_neg by (rewrite ?Zdigits2_opp; pose proof (Zdigits2_pos k); lia).
  rewrite Z.opp_involutive. fold (int_pair k).
  unfold ovf. pose proof (int_pair_small_snd k Hk).
  destruct (Z.leb_spec (snd (int_pair k)) 971); [reflexivity | lia].
Qed.

Lemma fixed_text_dollars decimals n :
  String.append "$" (fixed_text (n <? 0) decimals (10 ^ Z.of_nat decimals * Z.abs n))
  = dollars decimals n.
Proof.
  unfold dollars, fixed_text.
  assert (Hp : 0 < 10 ^ Z.of_nat decimals) by (apply Z.pow_pos_nonneg; lia).
  rewrite (Z.mul_comm (10 ^ Z.of_nat decimals)), Z.div_mul, Z.mod_mul by lia.
  reflexivity.
Qed.

Lemma money_int_exact decimals n :
  Z.abs n < 2 ^ 53 -> money_int decimals n = Ok (dollars decimals n).
Proof.
  intros Hn. rewrite <- fixed_text_dollars. unfold money_int.
  destruct (Z.lt_trichotomy n 0) as [Hneg | [-> | Hpos]].
  - replace n with (- (- n)) at 1 by lia.
    rewrite int_to_float_neg by lia. cbn [bind].
    unfold format_f. cbn [sign_bit]. rewrite scaled_round_sign.
    fold (fin (int_pair (- n))). rewrite scaled_round_int by lia.
    destruct (Z.ltb_spec n 0); [| lia].
    replace (Z.abs n) with (- n) by lia. reflexivity.
  - rewrite Z.mul_0_r. reflexivity.
  - rewrite int_to_float_small by lia. cbn [bind].
    unfold format_f, fin at 1. cbn [sign_bit].
    fold (fin (int_pair n)). rewrite scaled_round_int by lia.
    destruct (Z.ltb_spec n 0); [lia |].
    replace (Z.abs n) with n by lia. reflexivity.
Qed.

Lemma column_sum_total df name c : column df name = Ok c -> column_sum df name = Ok (total c).
Proof. intros H. unfold column_sum. rewrite H. reflexivity. Qed.

Lemma for_each_labels (c : list cell) : forall i,
  forallb exact_int c = true ->
  for_each (fun _ => money_cell 0) i c = Ok (map (fun x => dollars 0 (cell_int x)) c).
Proof.
  induction c as [| x c IH]; intros i H; [reflexivity |].
  cbn [forallb] in H. apply andb_true_iff in H as [Hx Hc].
  cbn [for_each map]. destruct x as [n | s]; [| discriminate Hx].
  cbn [exact_int] in Hx. apply Z.ltb_lt in Hx.
  cbn [money_cell cell_int]. rewrite money_int_exact by assumption. cbn [bind].
  rewrite IH by assumption. reflexivity.
Qed.


(** ** Frames *)

Lemma DataFrame_of_dict_columns d df : DataFrame_of_dict d = Ok df -> columns df = d.
Proof.
  unfold DataFrame_of_dict. destruct d as [| [k c] d'].
  - intros H. injection H as <-. reflexivity.
  - destruct (forallb _ _); [| discriminate]. intros H. injection H as <-. reflexivity.
Qed.

Lemma DataFrame_of_dict_length d df name c :
  DataFrame_of_dict d = Ok df -> In (name, c) (columns df) -> List.length c = nrows df.
Proof.
  unfold DataFrame_of_dict. destruct d as [| [k0 c0] d'].
  - intros H. injection H as <-. intros [].
  - destruct (forallb _ _) eqn:Hall; [| discriminate].
    intros H. injection H as <-. cbn [columns nrows]. intros Hin.
    rewrite forallb_forall in Hall. specialize (Hall _ Hin). cbn [snd] in Hall.
    apply Nat.eqb_eq in Hall. exact Hall.
Qed.

Lemma column_length d df name c :
  DataFrame_of_dict d = Ok df -> column df name = Ok c -> List.length c = nrows df.
Proof.
  intros Hd Hc. apply (DataFrame_of_dict_length d df name c Hd).
  apply getitem_in. exact Hc.
Qed.

Lemma loc_nth df name c i v :
  column df name = Ok c -> nth_error c i = Some v -> loc df i name = Ok v.
Proof. intros Hc Hn. unfold loc. rewrite Hc. cbn [bind]. rewrite Hn. reflexivity. Qed.

(** ** The timeline loop *)

Lemma color_of_risk r :
  is_risk_level r = true -> exists c, getitem_cell colors r = Ok c.
Proof.
  destruct r as [n | s]; cbn [is_risk_level getitem_cell]; [discriminate |].
  unfold colors. cbn [getitem].
  rewrite (String.eqb_sym s "Low"), (String.eqb_sym s "Medium"), (String.eqb_sym s "High").
  destruct (String.eqb "Low" s); [eexists; reflexivity |].
  destruct (String.eqb "Medium" s); [eexists; reflexivity |].
  destruct (String.eqb "High" s); [eexists; reflexivity | discriminate].
Qed.

Lemma no_color_of_risk r :
  is_risk_level r = false -> getitem_cell colors r = Raise (KeyError (cell_text r)).
Proof.
  destruct r as [n | s]; cbn [is_risk_level getitem_cell]; [reflexivity |].
  unfold colors. cbn [getitem cell_text].
  rewrite (String.eqb_sym s "Low"), (String.eqb_sym s "Medium"), (String.eqb_sym s "High").
  destruct (String.eqb "Low" s); [discriminate |].
  destruct (String.eqb "Medium" s); [discriminate |].
  destruct (String.eqb "High" s); [discriminate | reflexivity].
Qed.

Lemma for_each_bars df platform xs risks :
  column df platform = Ok xs -> column df "Risk Level" = Ok risks ->
  forall pl xl rl k,
    List.length xl = List.length pl -> List.length rl = List.length pl ->
    (forall j, nth_error xs (k + j) = nth_error xl j) ->
    (forall j, nth_error risks (k + j) = nth_error rl j) ->
    for_each (timeline_bar df platform) k pl = bars_of platform pl xl rl.
Proof.
  intros Hx Hr. induction pl as [| p pl IH]; intros xl rl k Hlx Hlr Hnx Hnr.
  - reflexivity.
  - destruct xl as [| x xl]; [discriminate Hlx |].
    destruct rl as [| r rl]; [discriminate Hlr |].
    cbn [for_each bars_of].
    rewrite (IH xl rl (S k)); cycle 1.
    { cbn in Hlx. lia. }
    { cbn in Hlr. lia. }
    { intros j. replace (S k + j)%nat with (k + S j)%nat by lia. rewrite Hnx. reflexivity. }
    { intros j. replace (S k + j)%nat with (k + S j)%nat by lia. rewrite Hnr. reflexivity. }
    unfold timeline_bar.
    rewrite (loc_nth df platform xs k x Hx)
      by (rewrite <- (Nat.add_0_r k); rewrite Hnx; reflexivity).
    rewrite (loc_nth df "Risk Level" risks k r Hr)
      by (rewrite <- (Nat.add_0_r k); rewrite Hnr; reflexivity).
    cbn [bind]. destruct (getitem_cell colors r) as [color | e]; cbn [bind]; reflexivity.
Qed.

Lemma platform_bars_eq d df platform phases xs risks :
  DataFrame_of_dict d = Ok df ->
  column df "Phase" = Ok phases -> column df platform = Ok xs ->
  column df "Risk Level" = Ok risks ->
  platform_bars df platform = bars_of platform phases xs risks.
Proof.
  intros Hd Hp Hx Hr. unfold platform_bars. rewrite Hp. cbn [bind].
  pose proof (column_length d df _ _ Hd Hp) as Lp.
  pose proof (column_length d df _ _ Hd Hx) as Lx.
  pose proof (column_length d df _ _ Hd Hr) as Lr.
  apply (for_each_bars df platform xs risks Hx Hr); try lia; intros j; reflexivity.
Qed.

Lemma bars_of_ok platform : forall pl xl rl,
  List.length xl = List.length pl -> List.length rl = List.length pl ->
  forallb is_risk_level rl = true ->
  exists bars,
    bars_of platform pl xl rl = Ok bars /\
    List.length bars = List.length pl /\
    map bar_y bars = repeat [platform] (List.length pl) /\
    map bar_x bars = map (fun c => [c]) xl /\
    map bar_name bars = map (fun p => (platform ++ " - " ++ cell_text p)%string) pl /\
    map (fun b => Ok (bar_color b)) bars = map (getitem_cell colors) rl /\
    map bar_customdata bars = map (fun pr => [[fst pr; snd pr]]) (combine pl rl).
Proof.
  induction pl as [| p pl IH]; intros xl rl Hlx Hlr Hall.
  - destruct xl; [| discriminate Hlx]. destruct rl; [| discriminate Hlr].
    exists []. repeat split.
  - destruct xl as [| x xl]; [discriminate Hlx |].
    destruct rl as [| r rl]; [discriminate Hlr |].
    cbn [forallb] in Hall. apply andb_true_iff in Hall as [Hr Hall].
    destruct (color_of_risk r Hr) as [color Hc].
    destruct (IH xl rl ltac:(cbn in Hlx; lia) ltac:(cbn in Hlr; lia) Hall)
      as (bars & Hb & Hlen & Hy & Hxs & Hn & Hcol & Hcd).
    eexists. cbn [bars_of]. rewrite Hc, Hb. cbn [bind].
    split; [reflexivity |].
    cbn [List.length map repeat combine bar_y bar_x bar_name bar_color bar_customdata fst snd].
    rewrite Hlen, Hy, Hxs, Hn, Hcol, Hcd, Hc. repeat split.
Qed.

Lemma bars_of_fail platform : forall pl xl rl,
  List.length xl = List.length pl -> List.length rl = List.length pl ->
  forallb is_risk_level rl = false ->
  exists r, In r rl /\ is_risk_level r = false /\
            bars_of platform pl xl rl = Raise (KeyError (cell_text r)).
Proof.
  induction pl as [| p pl IH]; intros xl rl Hlx Hlr Hall.
  - destruct rl; [discriminate Hall | discriminate Hlr].
  - destruct xl as [| x xl]; [discriminate Hlx |].
    destruct rl as [| r rl]; [discriminate Hlr |].
    cbn [forallb] in Hall. cbn [bars_of].
    destruct (is_risk_level r) eqn:Hr.
    + cbn [andb] in Hall.
      destruct (IH xl rl ltac:(cbn in Hlx; lia) ltac:(cbn in Hlr; lia) Hall)
        as (r' & Hin & Hbad & Hb).
      exists r'. split; [right; exact Hin |]. split; [exact Hbad |].
      destruct (color_of_risk r Hr) as [color ->]. cbn [bind]. rewrite Hb. reflexivity.
    + exists r. split; [left; reflexivity |]. split; [exact Hr |].
      rewrite (no_color_of_risk r Hr). reflexivity.
Qed.


(** ** The text of an export *)

Lemma append_assoc_string (a b c : string) : ((a ++ b) ++ c = a ++ (b ++ c))%string.
Proof. induction a as [| x a IH]; cbn; [reflexivity | rewrite IH; reflexivity]. Qed.

Lemma mem_char_app c s t : mem_char c (s ++ t) = mem_char c s || mem_char c t.
Proof.
  induction s as [| x s IH]; cbn [mem_char String.append]; [reflexivity |].
  rewrite IH. apply orb_assoc.
Qed.

Lemma split_at_app sep x r :
  mem_char sep x = false -> split_at sep (x ++ String sep r) = x :: split_at sep r.
Proof.
  induction x as [| c x IH]; cbn [mem_char String.append split_at]; intros H.
  - rewrite Ascii.eqb_refl. reflexivity.
  - apply orb_false_iff in H as [Hc Hx]. rewrite Ascii.eqb_sym, Hc.
    rewrite (IH Hx). reflexivity.
Qed.

Lemma split_at_plain sep x : mem_char sep x = false -> split_at sep x = [x].
Proof.
  induction x as [| c x IH]; cbn [mem_char split_at]; intros H; [reflexivity |].
  apply orb_false_iff in H as [Hc Hx]. rewrite Ascii.eqb_sym, Hc.
  rewrite (IH Hx). reflexivity.
Qed.

Lemma split_join sep l :
  l <> [] -> (forall s, In s l -> mem_char sep s = false) ->
  split_at sep (join sep l) = l.
Proof.
  induction l as [| x l IH]; intros Hne Hall; [contradiction |].
  destruct l as [| y l].
  - cbn [join]. apply split_at_plain. apply Hall. left. reflexivity.
  - change (join sep (x :: y :: l)) with (x ++ String sep (join sep (y :: l)))%string.
    rewrite split_at_app by (apply Hall; left; reflexivity).
    rewrite IH; [reflexivity | discriminate |].
    intros s Hs. apply Hall. right. exact Hs.
Qed.

Lemma mem_char_join c sep l :
  Ascii.eqb c sep = false -> (forall s, In s l -> mem_char c s = false) ->
  mem_char c (join sep l) = false.
Proof.
  intros Hc. induction l as [| x l IH]; intros Hall; [reflexivity |].
  destruct l as [| y l].
  - cbn [join]. apply Hall. left. reflexivity.
  - change (join sep (x :: y :: l)) with (x ++ String sep (join sep (y :: l)))%string.
    rewrite mem_char_app. cbn [mem_char]. rewrite Hc.
    rewrite (Hall x) by (left; reflexivity).
    rewrite IH; [reflexivity |]. intros s Hs. apply Hall. right. exact Hs.
Qed.

Lemma concat_lines (ls : list string) :
  String.concat EmptyString (map (fun l => (l ++ String newline EmptyString)%string) ls)
  = unlines ls.
Proof.
  induction ls as [| l ls IH]; [reflexivity |].
  cbn [map unlines fold_right]. fold (unlines ls). rewrite <- IH.
  destruct ls as [| l' ls]; cbn [map String.concat].
  - reflexivity.
  - rewrite append_assoc_string. cbn [String.append]. reflexivity.
Qed.

Lemma split_unlines ls :
  (forall l, In l ls -> mem_char newline l = false) ->
  split_at newline (unlines ls) = ls ++ [EmptyString].
Proof.
  induction ls as [| l ls IH]; intros Hall; [reflexivity |].
  cbn [unlines fold_right]. fold (unlines ls).
  rewrite split_at_app by (apply Hall; left; reflexivity).
  rewrite IH by (intros s Hs; apply Hall; right; exact Hs). reflexivity.
Qed.

Lemma csv_lines_unlines ls :
  (forall l, In l ls -> mem_char newline l = false) -> csv_lines (unlines ls) = ls.
Proof.
  intros Hall. unfold csv_lines. rewrite split_unlines by assumption.
  rewrite rev_app_distr. cbn [rev app]. apply rev_involutive.
Qed.

(** The digits of an integer hold none of the special characters. *)
Lemma mem_char_uint c d :
  (forall k, (k < 10)%nat -> Ascii.eqb c (ascii_of_nat (48 + k)) = false) ->
  mem_char c (NilEmpty.string_of_uint d) = false.
Proof.
  intros Hc.
  induction d as [| d IH | d IH | d IH | d IH | d IH | d IH | d IH | d IH | d IH | d IH];
    cbn [NilEmpty.string_of_uint mem_char]; [reflexivity | ..]; rewrite IH, orb_false_r.
  - apply (Hc 0%nat). lia.
  - apply (Hc 1%nat). lia.
  - apply (Hc 2%nat). lia.
  - apply (Hc 3%nat). lia.
  - apply (Hc 4%nat). lia.
  - apply (Hc 5%nat). lia.
  - apply (Hc 6%nat). lia.
  - apply (Hc 7%nat). lia.
  - apply (Hc 8%nat). lia.
  - apply (Hc 9%nat). lia.
Qed.

Lemma mem_char_int c n :
  Ascii.eqb c "-" = false ->
  (forall k, (k < 10)%nat -> Ascii.eqb c (ascii_of_nat (48 + k)) = false) ->
  mem_char c (NilZero.string_of_int (Z.to_int n)) = false.
Proof.
  intros Hm Hc. unfold NilZero.string_of_int.
  destruct (Z.to_int n) as [d | d].
  - unfold NilZero.string_of_uint. destruct d; try apply (mem_char_uint c _ Hc).
    cbn [mem_char]. rewrite orb_false_r. apply (Hc 0%nat). lia.
  - cbn [mem_char]. rewrite Hm. cbn [orb].
    unfold NilZero.string_of_uint. destruct d; try apply (mem_char_uint c _ Hc).
    cbn [mem_char]. rewrite orb_false_r. apply (Hc 0%nat). lia.
Qed.

Lemma not_digit c :
  (Nat.ltb (nat_of_ascii c) 48 = true) ->
  forall k, (k < 10)%nat -> Ascii.eqb c (ascii_of_nat (48 + k)) = false.
Proof.
  intros Hc k Hk. apply Ascii.eqb_neq. intros ->.
  rewrite nat_ascii_embedding in Hc by lia.
  apply Nat.ltb_lt in Hc. lia.
Qed.

Lemma plain_no_char s c :
  plain s = true -> In c [comma; dquote; newline; creturn] -> mem_char c s = false.
Proof.
  unfold plain. intros H Hc. apply andb_true_iff in H as [_ H].
  apply negb_true_iff in H.
  apply orb_false_iff in H as [H H4]. apply orb_false_iff in H as [H H3].
  apply orb_false_iff in H as [H1 H2].
  destruct Hc as [<- | [<- | [<- | [<- | []]]]]; assumption.
Qed.

Lemma csv_quote_plain s : plain s = true -> csv_quote s = s.
Proof.
  unfold plain, csv_quote. intros H. apply andb_true_iff in H as [_ H].
  apply negb_true_iff in H. rewrite H. reflexivity.
Qed.

Lemma csv_field_plain c : plain_cell c = true -> csv_field c = cell_text c.
Proof. destruct c as [n | s]; cbn; [reflexivity | apply csv_quote_plain]. Qed.

Lemma cell_text_no_char c x :
  plain_cell c = true -> In x [comma; newline] -> mem_char x (cell_text c) = false.
Proof.
  intros Hc Hx. destruct c as [n | s]; cbn [cell_text plain_cell] in *.
  - destruct Hx as [<- | [<- | []]]; apply mem_char_int;
      try reflexivity; apply not_digit; reflexivity.
  - apply plain_no_char; [assumption |].
    destruct Hx as [<- | [<- | []]]; cbn; auto.
Qed.


Lemma rows_cells d df r c :
  DataFrame_of_dict d = Ok df -> plain_frame df = true ->
  In r (rows df) -> In c r -> plain_cell c = true.
Proof.
  intros Hd Hp Hr Hc. unfold rows in Hr. apply in_map_iff in Hr as (i & <- & Hi).
  apply in_seq in Hi. unfold row in Hc. apply in_map_iff in Hc as ([k col] & <- & Hk).
  cbn [snd]. pose proof (DataFrame_of_dict_length d df k col Hd Hk) as Hlen.
  unfold plain_frame in Hp. rewrite forallb_forall in Hp. specialize (Hp _ Hk).
  cbn [fst snd] in Hp. apply andb_true_iff in Hp as [_ Hp].
  rewrite forallb_forall in Hp. apply Hp. apply nth_In. lia.
Qed.

Lemma rows_nonempty df r : columns df <> [] -> In r (rows df) -> r <> [].
Proof.
  intros Hc Hr. unfold rows in Hr. apply in_map_iff in Hr as (i & <- & _).
  unfold row. destruct (columns df); [contradiction | discriminate].
Qed.

Lemma to_csv_unlines d df :
  DataFrame_of_dict d = Ok df -> plain_frame df = true ->
  to_csv df =
  unlines (map (join comma) (map fst (columns df) :: map (map cell_text) (rows df))).
Proof.
  intros Hd Hp. unfold to_csv.
  assert (Hh : map (fun kc : string * list cell => csv_quote (fst kc)) (columns df)
               = map fst (columns df)).
  { apply map_ext_in. intros kc Hk. apply csv_quote_plain.
    unfold plain_frame in Hp. rewrite forallb_forall in Hp. specialize (Hp _ Hk).
    apply andb_true_iff in Hp as [Hp _]. exact Hp. }
  rewrite Hh.
  assert (Hr : map (fun r => csv_line (map csv_field r)) (rows df)
               = map (fun l => (l ++ String newline EmptyString)%string)
                     (map (join comma) (map (map cell_text) (rows df)))).
  { rewrite !map_map. apply map_ext_in. intros r Hin. unfold csv_line. f_equal. f_equal.
    apply map_ext_in. intros c Hc. apply csv_field_plain.
    apply (rows_cells d df r c Hd Hp Hin Hc). }
  rewrite Hr, concat_lines. unfold csv_line.
  cbn [map unlines fold_right]. rewrite append_assoc_string. reflexivity.
Qed.

(** * The claims *)


(** C2 (as stated, refuted): at (50, 12, Medium, 10) the returned roiA is
    not the value of the simplified formula costA * (10 / 100): the source
    takes the other path, costA * (1 + 10 / 100) - costA, and the two
    differ in binary64. *)
Lemma C2_roi_is_not_the_simplified_product :
  (e <- calculate_costs_and_roi 50 12 "Medium" 10 ;;
   r <- spec_roi (ms_stack_cost e) 10 ;;
   Ok (B64.eqb (ms_roi e) r)) = Ok false.
Proof. vm_compute. reflexivity. Qed.

(** C2 (amended): for every valid input far from overflow (positive
    userCount and durationMonths with 100 * userCount * durationMonths +
    50000 below 2^500, and 0 <= targetRoiPercent < 2^500, which covers the
    sliders), the estimator returns, roiA and roiB are the results of the
    path cost * (1 + p / 100) - cost of the source, and each agrees within
    the relative tolerance 1e-9 both with the exact product
    cost * targetRoiPercent / 100 and with its binary64 value
    cost * (targetRoiPercent / 100). *)
Theorem C2_roi_path_and_tolerance (t : ComplexityTier) (u m roi : Z) :
  0 < u -> 0 < m -> u * 100 * m + 50000 < 2 ^ 500 -> 0 <= roi < 2 ^ 500 ->
  exists (e : Estimate) (sA sB : float),
    calculate_costs_and_roi u m (tier_name t) roi = Ok e /\
    code_roi (ms_stack_cost e) roi = Ok (ms_roi e) /\
    code_roi (power_apps_cost e) roi = Ok (pa_roi e) /\
    spec_roi (ms_stack_cost e) roi = Ok sA /\
    spec_roi (power_apps_cost e) roi = Ok sB /\
    rel_close (1 # 10 ^ 9) (B64.to_Q (ms_stack_cost e) * (roi # 100)) (B64.to_Q (ms_roi e)) /\
    rel_close (1 # 10 ^ 9) (B64.to_Q sA) (B64.to_Q (ms_roi e)) /\
    rel_close (1 # 10 ^ 9) (B64.to_Q (power_apps_cost e) * (roi # 100)) (B64.to_Q (pa_roi e)) /\
    rel_close (1 # 10 ^ 9) (B64.to_Q sB) (B64.to_Q (pa_roi e)).
Proof.
  intros Hu Hm Hb Hr.
  pose proof (calculate_in_range t u m roi Hu Hm Hb Hr) as He.
  destruct (calculate_ok_inv _ _ _ _ _ He) as (_ & _ & HrA & HrB).
  cbn [ms_stack_cost power_apps_cost ms_roi pa_roi] in HrA, HrB.
  pose proof (baseA_pos u m Hu Hm) as HA. pose proof (baseB_pos u m Hu Hm) as HB.
  assert (Hab : u * 40 * m + 30000 < u * 100 * m + 50000).
  { assert (0 < u * m) by (apply Z.mul_pos_pos; assumption). lia. }
  destruct (cost_pair_range (u * 100 * m + 50000) t ltac:(lia) Hb) as (Ha1 & Ha2 & _ & Ha4).
  destruct (cost_pair_range (u * 40 * m + 30000) t ltac:(lia) ltac:(lia)) as (Hb1 & Hb2 & _ & Hb4).
  pose proof (cost_pair_normal (u * 100 * m + 50000) _ ltac:(lia) (factor_normal t)) as HnA.
  pose proof (cost_pair_normal (u * 40 * m + 30000) _ ltac:(lia) (factor_normal t)) as HnB.
  destruct (spec_roi_float_eq _ roi HnA Ha1 Ha2 Ha4 Hr) as [HsA HvA].
  destruct (spec_roi_float_eq _ roi HnB Hb1 Hb2 Hb4 Hr) as [HsB HvB].
  pose proof (roi_float_value _ roi HnA Ha1 Ha2 Hr) as HcA.
  pose proof (roi_float_value _ roi HnB Hb1 Hb2 Hr) as HcB.
  assert (HR : (0 <= roi # 100)%Q) by (unfold Qle; cbn; lia).
  assert (HxA : (0 <= P2Q (cost_pair (u * 100 * m + 50000) (factor_pair t)) * (roi # 100))%Q).
  { apply Qmult_le_0_compat; lra. }
  assert (HxB : (0 <= P2Q (cost_pair (u * 40 * m + 30000) (factor_pair t)) * (roi # 100))%Q).
  { apply Qmult_le_0_compat; lra. }
  destruct (approx_rel_close _ _ _ HxA HcA HvA) as [HA1 HA2].
  destruct (approx_rel_close _ _ _ HxB HcB HvB) as [HB1 HB2].
  eexists. exists (spec_roi_float (cost_pair (u * 100 * m + 50000) (factor_pair t)) roi).
  exists (spec_roi_float (cost_pair (u * 40 * m + 30000) (factor_pair t)) roi).
  split; [exact He |].
  cbn [ms_stack_cost power_apps_cost ms_roi pa_roi].
  unfold rel_close in *. rewrite !to_Q_fin by assumption.
  repeat split; assumption.
Qed.

Lemma C2_witness :
  exists (e : Estimate) (sA sB : float),
    calculate_costs_and_roi 50 12 (tier_name Medium) 10 = Ok e /\
    code_roi (ms_stack_cost e) 10 = Ok (ms_roi e) /\
    code_roi (power_apps_cost e) 10 = Ok (pa_roi e) /\
    spec_roi (ms_stack_cost e) 10 = Ok sA /\
    spec_roi (power_apps_cost e) 10 = Ok sB /\
    rel_close (1 # 10 ^ 9) (B64.to_Q (ms_stack_cost e) * (10 # 100)) (B64.to_Q (ms_roi e)) /\
    rel_close (1 # 10 ^ 9) (B64.to_Q sA) (B64.to_Q (ms_roi e)) /\
    rel_close (1 # 10 ^ 9) (B64.to_Q (power_apps_cost e) * (10 # 100)) (B64.to_Q (pa_roi e)) /\
    rel_close (1 # 10 ^ 9) (B64.to_Q sB) (B64.to_Q (pa_roi e)).
Proof.
  apply (C2_roi_path_and_tolerance Medium 50 12 10);
    first [lia | split; [lia | reflexivity] | reflexivity].
Defined.




(** C4 (as stated, refuted): at userCount=10, durationMonths=6, tier Low,
    targetRoiPercent=0 the estimator does not return costA = 46400.0. *)
Lemma C4_boundary_costA_is_not_46400 :
  fmap (fun e => B64.eqb (ms_stack_cost e) (float_literal 464000 10))
       (calculate_costs_and_roi 10 6 "Low" 0) = Ok false.
Proof. vm_compute. reflexivity. Qed.

(** C4 (amended): at (10, 6, Low, 0) the estimator returns costA = 44800.0,
    costB = 25920.0, roiA = 0.0 and roiB = 0.0; at (1000, 36, High, 200) it
    returns costA = 4745000.0, costB = 1911000.0, roiA = 9490000.0 and
    roiB = 3822000.0. *)
Theorem C4_boundary_values :
  calculate_costs_and_roi 10 6 "Low" 0 =
    Ok (mkEstimate (float_literal 448000 10) (float_literal 259200 10)
                   (float_literal 0 10) (float_literal 0 10)) /\
  calculate_costs_and_roi 1000 36 "High" 200 =
    Ok (mkEstimate (float_literal 47450000 10) (float_literal 19110000 10)
                   (float_literal 94900000 10) (float_literal 38220000 10)).
Proof. split; vm_compute; reflexivity. Qed.

(** C5: for valid inputs (positive userCount and durationMonths, one of the
    three tiers) on which the estimator returns, costA and costB are
    non-negative, and raising userCount or durationMonths (the other
    arguments fixed or raised too) never lowers either cost. *)
Theorem C5_costs_nonnegative_and_monotone
    (t : ComplexityTier) (u u' m m' roi roi' : Z) (e e' : Estimate) :
  0 < u -> u <= u' -> 0 < m -> m <= m' ->
  calculate_costs_and_roi u m (tier_name t) roi = Ok e ->
  calculate_costs_and_roi u' m' (tier_name t) roi' = Ok e' ->
  B64.leb (S754_zero false) (ms_stack_cost e) = true /\
  B64.leb (S754_zero false) (power_apps_cost e) = true /\
  B64.leb (ms_stack_cost e) (ms_stack_cost e') = true /\
  B64.leb (power_apps_cost e) (power_apps_cost e') = true.
Proof.
  intros Hu Huu Hm Hmm He He'.
  apply calculate_ok_inv in He as (HA & HB & _).
  apply calculate_ok_inv in He' as (HA' & HB' & _).
  unfold spec_costA, spec_costB in *.
  pose proof (baseA_pos u m Hu Hm) as HpA. pose proof (baseB_pos u m Hu Hm) as HpB.
  pose proof (base_mono u u' m m' 100 Hu Huu Hm Hmm ltac:(lia)) as HmA.
  pose proof (base_mono u u' m m' 40 Hu Huu Hm Hmm ltac:(lia)) as HmB.
  apply int_mul_float_ok_inv in HA as [_ ->]; [| lia].
  apply int_mul_float_ok_inv in HB as [_ ->]; [| lia].
  apply int_mul_float_ok_inv in HA' as [_ ->]; [| lia].
  apply int_mul_float_ok_inv in HB' as [_ ->]; [| lia].
  pose proof (factor_normal t) as Hf.
  repeat split; try apply leb_zero_ovf;
    apply ovf_leb;
    try (apply cost_pair_normal; [lia | assumption]);
    apply cost_pair_mono; try assumption; lia.
Qed.

Lemma C5_witness :
  B64.leb (S754_zero false) (float_literal 1100000 10) = true /\
  B64.leb (S754_zero false) (float_literal 540000 10) = true /\
  B64.leb (float_literal 1100000 10) (float_literal 1700000 10) = true /\
  B64.leb (float_literal 540000 10) (float_literal 780000 10) = true.
Proof.
  apply (C5_costs_nonnegative_and_monotone Medium 50 100 12 12 100 100
           (mkEstimate (float_literal 1100000 10) (float_literal 540000 10)
                       (float_literal 1100000 10) (float_literal 540000 10))
           (mkEstimate (float_literal 1700000 10) (float_literal 780000 10)
                       (float_literal 1700000 10) (float_literal 780000 10)));
    first [lia | vm_compute; reflexivity].
Defined.

(** C6: for positive userCount and durationMonths on which the estimator
    returns, both costs are strictly ordered by the tier:
    cost(Low) < cost(Medium) < cost(High). *)
Theorem C6_tiers_strictly_order_costs
    (u m roi : Z) (eL eM eH : Estimate) :
  0 < u -> 0 < m ->
  calculate_costs_and_roi u m "Low" roi = Ok eL ->
  calculate_costs_and_roi u m "Medium" roi = Ok eM ->
  calculate_costs_and_roi u m "High" roi = Ok eH ->
  B64.ltb (ms_stack_cost eL) (ms_stack_cost eM) = true /\
  B64.ltb (ms_stack_cost eM) (ms_stack_cost eH) = true /\
  B64.ltb (power_apps_cost eL) (power_apps_cost eM) = true /\
  B64.ltb (power_apps_cost eM) (power_apps_cost eH) = true.
Proof.
  intros Hu Hm HL HM HH.
  apply (calculate_ok_inv Low) in HL as (HAL & HBL & _).
  apply (calculate_ok_inv Medium) in HM as (HAM & HBM & _).
  apply (calculate_ok_inv High) in HH as (HAH & HBH & _).
  unfold spec_costA, spec_costB in *.
  pose proof (baseA_pos u m Hu Hm) as HpA. pose proof (baseB_pos u m Hu Hm) as HpB.
  apply int_mul_float_ok_inv in HAL as [HfA ->]; [| lia].
  apply int_mul_float_ok_inv in HBL as [HfB ->]; [| lia].
  apply int_mul_float_ok_inv in HAM as [_ ->]; [| lia].
  apply int_mul_float_ok_inv in HBM as [_ ->]; [| lia].
  apply int_mul_float_ok_inv in HAH as [_ ->]; [| lia].
  apply int_mul_float_ok_inv in HBH as [_ ->]; [| lia].
  destruct (cost_pair_tiers (u * 100 * m + 50000) ltac:(lia)) as [HA1 HA2].
  destruct (cost_pair_tiers (u * 40 * m + 30000) ltac:(lia)) as [HB1 HB2].
  assert (HMA : snd (cost_pair (u * 100 * m + 50000) (factor_pair Medium)) <= 971)
    by (rewrite cost_pair_medium by lia; assumption).
  assert (HMB : snd (cost_pair (u * 40 * m + 30000) (factor_pair Medium)) <= 971)
    by (rewrite cost_pair_medium by lia; assumption).
  repeat split; apply ovf_ltb;
    try (apply cost_pair_normal; [lia | apply factor_normal]);
    try assumption.
  - unfold plt in HA1. lia.
  - unfold plt in HB1. lia.
Qed.

Lemma C6_witness :
  B64.ltb (float_literal 880000 10) (float_literal 1100000 10) = true /\
  B64.ltb (float_literal 1100000 10) (float_literal 1430000 10) = true /\
  B64.ltb (float_literal 432000 10) (float_literal 540000 10) = true /\
  B64.ltb (float_literal 540000 10) (float_literal 702000 10) = true.
Proof.
  apply (C6_tiers_strictly_order_costs 50 12 0
           (mkEstimate (float_literal 880000 10) (float_literal 432000 10)
                       (float_literal 0 10) (float_literal 0 10))
           (mkEstimate (float_literal 1100000 10) (float_literal 540000 10)
                       (float_literal 0 10) (float_literal 0 10))
           (mkEstimate (float_literal 1430000 10) (float_literal 702000 10)
                       (float_literal 0 10) (float_literal 0 10)));
    first [lia | vm_compute; reflexivity].
Defined.


(** C8 (as stated, refuted): the header row of the exported FactorScore
    table is not [Factor, MicrosoftStack, AzurePowerApps]. *)
Lemma C8_header_is_not_the_stated_one :
  fmap (fun df => hd [] (csv_records (to_csv df))) df_comparison <>
  Ok ["Factor"; "MicrosoftStack"; "AzurePowerApps"]%string.
Proof. vm_compute. intros H. discriminate H. Qed.

(** C8 (amended): exporting the FactorScore table gives comma-separated
    text whose header row is [Factor, Microsoft Stack, Azure Power Apps]
    (the column names, with their spaces), without an index column, followed
    by the 10 rows in the order of the table. *)
Theorem C8_comparison_csv :
  fmap (fun df => csv_records (to_csv df)) df_comparison =
  Ok [ ["Factor"; "Microsoft Stack"; "Azure Power Apps"];
       ["Development Speed"; "7"; "9"];
       ["Scalability"; "6"; "9"];
       ["Initial Cost"; "8"; "6"];
       ["Ongoing Cost"; "7"; "7"];
       ["Customizability"; "9"; "7"];
       ["Maintenance Effort"; "6"; "8"];
       ["Time-to-Market"; "7"; "9"];
       ["Security Features"; "8"; "9"];
       ["Integration Capability"; "9"; "8"];
       ["Learning Curve"; "8"; "6"] ]%string /\
  fmap (fun df => map (hd EmptyString) (tl (csv_records (to_csv df)))) df_comparison =
  fmap (fun df => map csv_field (nth 0 (map snd (columns df)) [])) df_comparison.
Proof. split; vm_compute; reflexivity. Qed.


(** C10 (as stated, refuted): at userCount = 15 * 10^305, durationMonths = 1,
    tier High and targetRoiPercent = 100, costA overflows to infinity, roiA
    is NaN, and roiB <= roiA does not hold. *)
Lemma C10_overflow_breaks_roi_order :
  fmap (fun e => (B64.is_nan (ms_roi e), B64.leb (pa_roi e) (ms_roi e)))
       (calculate_costs_and_roi (15 * 10 ^ 305) 1 "High" 100) = Ok (true, false).
Proof. vm_compute. reflexivity. Qed.

(** C10 (amended): for every input with userCount > 0, durationMonths > 0
    and one of the three tiers on which the estimator returns, costB <
    costA; and when moreover 100 * userCount * durationMonths + 50000 and
    targetRoiPercent >= 0 are below 2^500 (every slider input is), the
    estimator returns and roiB <= roiA. *)
Theorem C10_low_code_is_cheaper (t : ComplexityTier) (u m roi : Z) :
  0 < u -> 0 < m ->
  (forall e : Estimate,
     calculate_costs_and_roi u m (tier_name t) roi = Ok e ->
     B64.ltb (power_apps_cost e) (ms_stack_cost e) = true) /\
  (u * 100 * m + 50000 < 2 ^ 500 -> 0 <= roi < 2 ^ 500 ->
   exists e : Estimate,
     calculate_costs_and_roi u m (tier_name t) roi = Ok e /\
     B64.leb (pa_roi e) (ms_roi e) = true).
Proof.
  intros Hu Hm.
  pose proof (baseA_pos u m Hu Hm) as HA. pose proof (baseB_pos u m Hu Hm) as HB.
  pose proof (cost_pair_normal (u * 100 * m + 50000) _ ltac:(lia) (factor_normal t)) as HnA.
  pose proof (cost_pair_normal (u * 40 * m + 30000) _ ltac:(lia) (factor_normal t)) as HnB.
  pose proof (cost_pair_stacks u m t Hu Hm) as Hst.
  pose proof (P2Q_pos _ HnB) as HB0.
  assert (Hlt : plt (cost_pair (u * 40 * m + 30000) (factor_pair t))
                    (cost_pair (u * 100 * m + 50000) (factor_pair t))).
  { apply P2Q_lt_plt; [assumption | assumption | lra]. }
  split.
  - intros e He.
    apply calculate_ok_inv in He as (HcA & HcB & _).
    unfold spec_costA, spec_costB in *.
    apply int_mul_float_ok_inv in HcA as [HfA ->]; [| lia].
    apply int_mul_float_ok_inv in HcB as [_ ->]; [| lia].
    apply ovf_ltb; [assumption | assumption | exact Hlt |].
    apply cost_pair_B_finite; assumption.
  - intros Hb Hr.
    pose proof (calculate_in_range t u m roi Hu Hm Hb Hr) as He.
    eexists. split; [exact He |].
    cbn [ms_roi pa_roi]. unfold roi_float.
    destruct (Z.eqb_spec roi 0) as [-> | Hne]; [reflexivity |].
    assert (Hab : u * 40 * m + 30000 < u * 100 * m + 50000).
    { assert (0 < u * m) by (apply Z.mul_pos_pos; assumption). lia. }
    destruct (cost_pair_range (u * 100 * m + 50000) t ltac:(lia) Hb) as (Ha1 & Ha2 & _).
    destruct (cost_pair_range (u * 40 * m + 30000) t ltac:(lia) ltac:(lia)) as (Hb1 & Hb2 & _).
    destruct (code_roi_pos _ roi HnA Ha1 Ha2 ltac:(lia)) as (_ & HrnA & _ & [HlA HuA]).
    destruct (code_roi_pos _ roi HnB Hb1 Hb2 ltac:(lia)) as (_ & HrnB & _ & [HlB HuB]).
    pose proof (Qmake_100_ge roi ltac:(lia)) as HR.
    assert (Hprod : (14 * P2Q (cost_pair (u * 40 * m + 30000) (factor_pair t)) * (roi # 100)
                     <= 10 * P2Q (cost_pair (u * 100 * m + 50000) (factor_pair t)) * (roi # 100))%Q).
    { apply Qmult_le_compat_r; [exact Hst | lra]. }
    assert (Hpos : (0 < P2Q (cost_pair (u * 40 * m + 30000) (factor_pair t)) * (roi # 100))%Q).
    { apply Qmult_lt_0_compat; lra. }
    change (1 # 10 ^ 12)%Q with (1 # 1000000000000)%Q in *.
    apply fin_leb; [assumption | assumption |].
    apply P2Q_le_ple; [assumption | assumption | lra].
Qed.

Lemma C10_witness :
  (forall e : Estimate,
     calculate_costs_and_roi 50 12 (tier_name Medium) 100 = Ok e ->
     B64.ltb (power_apps_cost e) (ms_stack_cost e) = true) /\
  (exists e : Estimate,
     calculate_costs_and_roi 50 12 (tier_name Medium) 100 = Ok e /\
     B64.leb (pa_roi e) (ms_roi e) = true).
Proof.
  destruct (C10_low_code_is_cheaper Medium 50 12 100) as [H1 H2]; [lia | lia |].
  split; [exact H1 |].
  apply H2; [reflexivity | split; [lia | reflexivity]].
Defined.

(** * Further properties *)

(** On every input the four widgets can produce, the estimator returns, and
    its four outputs are finite and not negative. *)
Theorem estimator_total_on_sliders (users months roi : Z) (complexity : string) :
  ui_input users months roi complexity ->
  exists e : Estimate,
    calculate_costs_and_roi users months complexity roi = Ok e /\
    forallb B64.is_finite [ms_stack_cost e; power_apps_cost e; ms_roi e; pa_roi e] = true /\
    forallb (B64.leb (S754_zero false))
            [ms_stack_cost e; power_apps_cost e; ms_roi e; pa_roi e] = true.
Proof.
  intros Hui.
  destruct (ui_input_in_range _ _ _ _ Hui) as (Hu & Hm & Hb & Hr & t & ->).
  rewrite (calculate_in_range t users months roi Hu Hm Hb Hr).
  eexists. split; [reflexivity |].
  cbn [ms_stack_cost power_apps_cost ms_roi pa_roi forallb].
  unfold roi_float. destruct (roi =? 0); split; reflexivity.
Qed.

Lemma estimator_total_on_sliders_witness :
  exists e : Estimate,
    calculate_costs_and_roi 50 12 "Medium" 100 = Ok e /\
    forallb B64.is_finite [ms_stack_cost e; power_apps_cost e; ms_roi e; pa_roi e] = true /\
    forallb (B64.leb (S754_zero false))
            [ms_stack_cost e; power_apps_cost e; ms_roi e; pa_roi e] = true.
Proof.
  apply (estimator_total_on_sliders 50 12 100 "Medium").
  split; unfold in_slider; cbn; first [lia | tauto].
Defined.


(** * More on the estimator *)

(** Both costs are exact: for positive userCount and durationMonths with
    userCount * 100 * durationMonths + 50000 below 2^52, the cost floats the
    estimator returns are the conversions of the integers
    tenths * (userCount * 10 * durationMonths + 5000) and
    tenths * (userCount * 4 * durationMonths + 3000), with tenths = 8, 10, 13
    for Low, Medium, High; no rounding error enters, although 0.8 and 1.3 are
    not binary fractions. *)
Theorem costs_are_exact_integers
    (t : ComplexityTier) (u m roi : Z) (e : Estimate) :
  0 < u -> 0 < m -> u * 100 * m + 50000 < 2 ^ 52 ->
  calculate_costs_and_roi u m (tier_name t) roi = Ok e ->
  int_to_float (exact_costA t u m) = Ok (ms_stack_cost e) /\
  int_to_float (exact_costB t u m) = Ok (power_apps_cost e) /\
  (B64.to_Q (ms_stack_cost e) == inject_Z (exact_costA t u m))%Q /\
  (B64.to_Q (power_apps_cost e) == inject_Z (exact_costB t u m))%Q.
Proof.
  intros Hu Hm Hb He.
  destruct (exact_cost_bounds t u m Hu Hm Hb) as (HB0 & HBA & HA).
  assert (0 < u * m) by (apply Z.mul_pos_pos; assumption).
  apply calculate_ok_inv in He as (HcA & HcB & _).
  unfold spec_costA in HcA. unfold spec_costB in HcB.
  apply int_mul_float_ok_inv in HcA as [_ HcA]; [| lia].
  apply int_mul_float_ok_inv in HcB as [_ HcB]; [| lia].
  rewrite cost_pair_exactA in HcA by assumption.
  rewrite cost_pair_exactB in HcB by assumption.
  rewrite ovf_fin in HcA by (apply int_pair_small_snd; lia).
  rewrite ovf_fin in HcB by (apply int_pair_small_snd; lia).
  rewrite HcA, HcB.
  repeat split.
  - apply int_to_float_small. lia.
  - apply int_to_float_small. lia.
  - apply to_Q_int_pair. lia.
  - apply to_Q_int_pair. lia.
Qed.

Lemma costs_are_exact_integers_witness :
  int_to_float (exact_costA High 1000 36) = Ok (float_literal 47450000 10) /\
  int_to_float (exact_costB High 1000 36) = Ok (float_literal 19110000 10) /\
  (B64.to_Q (float_literal 47450000 10) == inject_Z (exact_costA High 1000 36))%Q /\
  (B64.to_Q (float_literal 19110000 10) == inject_Z (exact_costB High 1000 36))%Q.
Proof.
  apply (costs_are_exact_integers High 1000 36 200
           (mkEstimate (float_literal 47450000 10) (float_literal 19110000 10)
                       (float_literal 94900000 10) (float_literal 38220000 10)));
    first [lia | reflexivity | vm_compute; reflexivity].
Defined.

(** What the ROI tab shows: on every input of the four widgets the two cost
    metrics are the exact costs in whole dollars (always ".00") and the two
    ROI metrics are cost * percent / 100 to the cent, the rounding error of
    the path cost * (1 + p) - cost staying below half a cent. *)
Theorem roi_tab_shows_exact_amounts
    (t : ComplexityTier) (users months roi : Z) :
  ui_input users months roi (tier_name t) ->
  roi_tab_metrics users months (tier_name t) roi =
  Ok [ ("Microsoft Stack Total Cost",
        "$" ++ commas (decimal (exact_costA t users months)) ++ ".00");
       ("Azure Power Apps Total Cost",
        "$" ++ commas (decimal (exact_costB t users months)) ++ ".00");
       ("Microsoft Stack Expected ROI",
        "$" ++ fixed_text false 2 (exact_costA t users months * roi));
       ("Azure Power Apps Expected ROI",
        "$" ++ fixed_text false 2 (exact_costB t users months * roi)) ]%string.
Proof.
  intros [[Hu1 Hu2] [Hm1 Hm2] [Hr1 Hr2] _]. unfold in_slider in *.
  assert (Hum : 60 <= users * months <= 36000) by nia.
  assert (Hb : users * 100 * months + 50000 < 2 ^ 52).
  { change (2 ^ 52) with 4503599627370496. lia. }
  assert (H500 : 0 <= roi < 2 ^ 500).
  { assert (2 ^ 8 <= 2 ^ 500) by (apply Z.pow_le_mono_r; lia).
    change (2 ^ 8) with 256 in *. lia. }
  destruct (exact_cost_bounds t users months ltac:(lia) ltac:(lia) Hb) as (HB0 & HBA & HA).
  assert (HAr : exact_costA t users months * roi <= 10 ^ 11).
  { change (10 ^ 11) with 100000000000. unfold exact_costA.
    destruct t; cbn [tier_tenths]; nia. }
  assert (HBr : exact_costB t users months * roi <= 10 ^ 11).
  { change (10 ^ 11) with 100000000000. unfold exact_costB.
    destruct t; cbn [tier_tenths]; nia. }
  unfold roi_tab_metrics.
  rewrite calculate_exact by (try assumption; lia).
  cbn [bind ms_stack_cost power_apps_cost ms_roi pa_roi].
  rewrite !money_int_pair by lia.
  rewrite !fixed_text_whole by lia.
  rewrite !roi_float_cents by (try assumption; lia).
  reflexivity.
Qed.

Lemma roi_tab_shows_exact_amounts_witness :
  roi_tab_metrics 50 12 "Medium" 10 =
  Ok [ ("Microsoft Stack Total Cost", "$110,000.00");
       ("Azure Power Apps Total Cost", "$54,000.00");
       ("Microsoft Stack Expected ROI", "$11,000.00");
       ("Azure Power Apps Expected ROI", "$5,400.00") ]%string.
Proof.
  apply (roi_tab_shows_exact_amounts Medium 50 12 10).
  split; unfold in_slider; cbn; first [lia | tauto].
Defined.

(** At the default 100 percent each ROI figure is the cost itself, bit for
    bit, and at 0 percent it is +0.0: the path cost * (1 + p) - cost loses
    nothing at these two settings. *)
Theorem roi_at_100_and_0_percent (t : ComplexityTier) (u m : Z) :
  0 < u -> 0 < m -> u * 100 * m + 50000 < 2 ^ 500 ->
  exists e e0 : Estimate,
    calculate_costs_and_roi u m (tier_name t) 100 = Ok e /\
    ms_roi e = ms_stack_cost e /\ pa_roi e = power_apps_cost e /\
    calculate_costs_and_roi u m (tier_name t) 0 = Ok e0 /\
    ms_stack_cost e0 = ms_stack_cost e /\ power_apps_cost e0 = power_apps_cost e /\
    ms_roi e0 = S754_zero false /\ pa_roi e0 = S754_zero false.
Proof.
  intros Hu Hm Hb.
  assert (H100 : 0 <= 100 < 2 ^ 500).
  { assert (2 ^ 7 <= 2 ^ 500) by (apply Z.pow_le_mono_r; lia).
    change (2 ^ 7) with 128 in *. lia. }
  assert (H0 : 0 <= 0 < 2 ^ 500) by lia.
  assert (0 < u * m) by (apply Z.mul_pos_pos; assumption).
  do 2 eexists.
  rewrite (calculate_in_range t u m 100 Hu Hm Hb H100).
  rewrite (calculate_in_range t u m 0 Hu Hm Hb H0).
  cbn [ms_stack_cost power_apps_cost ms_roi pa_roi].
  unfold roi_float. cbn [Z.eqb].
  rewrite !roi_pair_100 by (apply rpair_is_normal; apply Z.mul_pos_pos;
                            [apply normal_pos, int_pair_normal; lia
                            | apply normal_pos, factor_normal]).
  repeat split; reflexivity.
Qed.

Lemma roi_at_100_and_0_percent_witness :
  exists e e0 : Estimate,
    calculate_costs_and_roi 50 12 "Low" 100 = Ok e /\
    ms_roi e = ms_stack_cost e /\ pa_roi e = power_apps_cost e /\
    calculate_costs_and_roi 50 12 "Low" 0 = Ok e0 /\
    ms_stack_cost e0 = ms_stack_cost e /\ power_apps_cost e0 = power_apps_cost e /\
    ms_roi e0 = S754_zero false /\ pa_roi e0 = S754_zero false.
Proof.
  apply (roi_at_100_and_0_percent Low 50 12); first [lia | reflexivity].
Defined.



(** * What the other tabs show *)

(** The two metrics under the cost chart: for every cost table whose
    amounts and column totals are integers below 2^53 in magnitude, each
    metric shows its column total exactly, in whole dollars with ".00", and
    the two deltas are the difference of the totals and its opposite, the
    negative one written with the minus sign after the dollar sign. *)
Theorem cost_tab_shows_exact_totals (df : DataFrame) (ms pa : list cell) :
  column df "Microsoft Stack" = Ok ms ->
  column df "Azure Power Apps" = Ok pa ->
  forallb exact_int ms = true ->
  forallb exact_int pa = true ->
  Z.abs (total ms) < 2 ^ 53 ->
  Z.abs (total pa) < 2 ^ 53 ->
  Z.abs (total ms - total pa) < 2 ^ 53 ->
  cost_tab_metrics df =
  Ok [ ("Total Microsoft Stack Cost"%string,
        dollars 2 (total ms), dollars 2 (total ms - total pa));
       ("Total Azure Power Apps Cost"%string,
        dollars 2 (total pa), dollars 2 (total pa - total ms)) ].
Proof.
  intros Hms Hpa _ _ Ha Hb Hd. unfold cost_tab_metrics.
  rewrite (column_sum_total df _ ms Hms), (column_sum_total df _ pa Hpa). cbn [bind].
  rewrite !money_int_exact by lia. reflexivity.
Qed.

Lemma cost_tab_shows_exact_totals_witness :
  cost_tab_metrics (mkDataFrame cost_breakdown 5) =
  Ok [ ("Total Microsoft Stack Cost", "$205,000.00", "$15,000.00");
       ("Total Azure Power Apps Cost", "$190,000.00", "$-15,000.00") ]%string.
Proof.
  apply (cost_tab_shows_exact_totals (mkDataFrame cost_breakdown 5)
           (ints [50000; 30000; 80000; 20000; 25000])
           (ints [70000; 15000; 60000; 30000; 15000]));
    reflexivity.
Defined.

(** The text on the cost bars: for every column of integers below 2^53 in
    magnitude, the labels are the amounts themselves, digit for digit, with
    a dollar sign and the thousands grouped by commas, one label per row in
    the order of the rows. *)
Theorem cost_bar_labels_are_exact (df : DataFrame) (name : string) (c : list cell) :
  column df name = Ok c ->
  forallb exact_int c = true ->
  cost_bar_labels df name = Ok (map (fun x => dollars 0 (cell_int x)) c).
Proof.
  intros Hc Hall. unfold cost_bar_labels. rewrite Hc. cbn [bind].
  apply for_each_labels. exact Hall.
Qed.

Lemma cost_bar_labels_are_exact_witness :
  cost_bar_labels (mkDataFrame cost_breakdown 5) "Azure Power Apps" =
  Ok ["$70,000"; "$15,000"; "$60,000"; "$30,000"; "$15,000"]%string.
Proof.
  apply (cost_bar_labels_are_exact (mkDataFrame cost_breakdown 5) "Azure Power Apps"
           (ints [70000; 15000; 60000; 30000; 15000]));
    reflexivity.
Defined.

(** What a download button exports: for every frame with at least one
    column whose names and string cells are not empty and hold no comma, no
    quote character and no line break, the text of [to_csv(index=False)]
    reads back, line by line and field by field, as the column names
    followed by the rows of the frame in order, integers in decimal; nothing
    is quoted, no index column and no other line is written. *)
Theorem csv_export_has_the_rows_of_the_frame (d : dict (list cell)) (df : DataFrame) :
  DataFrame_of_dict d = Ok df ->
  (0 < List.length (columns df))%nat ->
  plain_frame df = true ->
  csv_records (to_csv df) = map fst (columns df) :: map (map cell_text) (rows df).
Proof.
  intros Hd Hn Hp.
  assert (Hcols : columns df <> []) by (destruct (columns df); [cbn in Hn; lia | discriminate]).
  rewrite (to_csv_unlines d df Hd Hp). unfold csv_records.
  set (records := map fst (columns df) :: map (map cell_text) (rows df)).
  assert (Hfields : forall r s x, In r records -> In s r -> In x [comma; newline] ->
                                  mem_char x s = false).
  { intros r s x Hr Hs Hx. destruct Hr as [<- | Hr].
    - apply in_map_iff in Hs as (kc & <- & Hk).
      unfold plain_frame in Hp. rewrite forallb_forall in Hp. specialize (Hp _ Hk).
      apply andb_true_iff in Hp as [Hp _]. apply plain_no_char; [exact Hp |].
      destruct Hx as [<- | [<- | []]]; cbn; auto.
    - apply in_map_iff in Hr as (r0 & <- & Hr0).
      apply in_map_iff in Hs as (c & <- & Hc).
      apply cell_text_no_char; [| exact Hx].
      apply (rows_cells d df r0 c Hd Hp Hr0 Hc). }
  assert (Hne : forall r, In r records -> r <> []).
  { intros r [<- | Hr].
    - destruct (columns df); [contradiction | discriminate].
    - apply in_map_iff in Hr as (r0 & <- & Hr0).
      pose proof (rows_nonempty df r0 Hcols Hr0). destruct r0; [contradiction | discriminate]. }
  rewrite csv_lines_unlines.
  - rewrite map_map. rewrite <- (map_id records) at 2. apply map_ext_in.
    intros r Hr. apply split_join; [apply Hne; exact Hr |].
    intros s Hs. apply (Hfields r s comma Hr Hs). cbn. auto.
  - intros l Hl. apply in_map_iff in Hl as (r & <- & Hr).
    apply mem_char_join; [reflexivity |].
    intros s Hs. apply (Hfields r s newline Hr Hs). cbn. auto.
Qed.

Lemma csv_export_has_the_rows_of_the_frame_witness :
  csv_records (to_csv (mkDataFrame cost_breakdown 5)) =
  [ ["Category"; "Microsoft Stack"; "Azure Power Apps"];
    ["Licensing"; "50000"; "70000"];
    ["Infrastructure"; "30000"; "15000"];
    ["Development"; "80000"; "60000"];
    ["Training"; "20000"; "30000"];
    ["Maintenance"; "25000"; "15000"] ]%string.
Proof.
  apply (csv_export_has_the_rows_of_the_frame cost_breakdown (mkDataFrame cost_breakdown 5));
    first [reflexivity | cbn; lia].
Defined.

(** The loop that fills the timeline chart: on every timeline table with
    the four columns, the positional reads [df.loc[i, ...]] never fail; when
    every risk level is Low, Medium or High the loop adds two bars per row
    (all the bars of the Microsoft stack first, then those of Azure Power
    Apps, in the order of the phases), each with the duration of its row and
    the colour of its risk level; otherwise the run stops with a KeyError on
    a risk level that has no colour. *)
Theorem timeline_chart_traces
    (d : dict (list cell)) (df : DataFrame) (phases ms pa risks : list cell) :
  DataFrame_of_dict d = Ok df ->
  column df "Phase" = Ok phases ->
  column df "Microsoft Stack" = Ok ms ->
  column df "Azure Power Apps" = Ok pa ->
  column df "Risk Level" = Ok risks ->
  (forallb is_risk_level risks = true ->
   exists bars : list Bar,
     timeline_traces df = Ok bars /\
     List.length bars = (2 * nrows df)%nat /\
     map bar_y bars =
       repeat ["Microsoft Stack"%string] (nrows df)
       ++ repeat ["Azure Power Apps"%string] (nrows df) /\
     map bar_x bars = map (fun c => [c]) (ms ++ pa) /\
     map bar_name bars =
       map (fun p => ("Microsoft Stack - " ++ cell_text p)%string) phases
       ++ map (fun p => ("Azure Power Apps - " ++ cell_text p)%string) phases /\
     map (fun b => Ok (bar_color b)) bars = map (getitem_cell colors) (risks ++ risks) /\
     map bar_customdata bars =
       map (fun pr => [[fst pr; snd pr]]) (combine phases risks ++ combine phases risks)) /\
  (forallb is_risk_level risks = false ->
   exists r : cell,
     In r risks /\ is_risk_level r = false /\
     timeline_traces df = Raise (KeyError (cell_text r))).
Proof.
  intros Hd Hp Hms Hpa Hr.
  pose proof (column_length d df _ _ Hd Hp) as Lp.
  pose proof (column_length d df _ _ Hd Hms) as Lms.
  pose proof (column_length d df _ _ Hd Hpa) as Lpa.
  pose proof (column_length d df _ _ Hd Hr) as Lr.
  unfold timeline_traces.
  rewrite (platform_bars_eq d df "Microsoft Stack" phases ms risks Hd Hp Hms Hr).
  rewrite (platform_bars_eq d df "Azure Power Apps" phases pa risks Hd Hp Hpa Hr).
  split; intros Hall.
  - destruct (bars_of_ok "Microsoft Stack" phases ms risks ltac:(lia) ltac:(lia) Hall)
      as (a & -> & La & Ya & Xa & Na & Ca & Da).
    destruct (bars_of_ok "Azure Power Apps" phases pa risks ltac:(lia) ltac:(lia) Hall)
      as (b & -> & Lb & Yb & Xb & Nb & Cb & Db).
    exists (a ++ b). cbn [bind]. split; [reflexivity |].
    rewrite !map_app, length_app, La, Lb, Ya, Yb, Xa, Xb, Na, Nb, Ca, Cb, Da, Db, Lp.
    repeat split. lia.
  - destruct (bars_of_fail "Microsoft Stack" phases ms risks ltac:(lia) ltac:(lia) Hall)
      as (r & Hin & Hbad & ->).
    exists r. repeat split; assumption.
Qed.

Lemma timeline_chart_traces_witness :
  exists bars : list Bar,
    timeline_traces (mkDataFrame timeline_data 6) = Ok bars /\
    List.length bars = (2 * 6)%nat /\
    map bar_y bars =
      repeat ["Microsoft Stack"%string] 6 ++ repeat ["Azure Power Apps"%string] 6 /\
    map bar_x bars =
      map (fun c => [c]) (ints [30; 45; 60; 45; 30; 15] ++ ints [15; 30; 45; 30; 30; 15]) /\
    map bar_name bars =
      map (fun p => ("Microsoft Stack - " ++ cell_text p)%string)
          (strs ["Environment Setup"; "Base Implementation"; "Core Features";
                 "Integration"; "Testing"; "Deployment"]%string)
      ++ map (fun p => ("Azure Power Apps - " ++ cell_text p)%string)
             (strs ["Environment Setup"; "Base Implementation"; "Core Features";
                    "Integration"; "Testing"; "Deployment"]%string) /\
    map (fun b => Ok (bar_color b)) bars =
      map (getitem_cell colors)
          (strs ["Low"; "Medium"; "High"; "High"; "Medium"; "Low"]%string
           ++ strs ["Low"; "Medium"; "High"; "High"; "Medium"; "Low"]%string) /\
    map bar_customdata bars =
      map (fun pr => [[fst pr; snd pr]])
          (combine (strs ["Environment Setup"; "Base Implementation"; "Core Features";
                          "Integration"; "Testing"; "Deployment"]%string)
                   (strs ["Low"; "Medium"; "High"; "High"; "Medium"; "Low"]%string)
           ++ combine (strs ["Environment Setup"; "Base Implementation"; "Core Features";
                             "Integration"; "Testing"; "Deployment"]%string)
                      (strs ["Low"; "Medium"; "High"; "High"; "Medium"; "Low"]%string)).
Proof.
  refine (proj1 (timeline_chart_traces timeline_data (mkDataFrame timeline_data 6)
                   (strs ["Environment Setup"; "Base Implementation"; "Core Features";
                          "Integration"; "Testing"; "Deployment"]%string)
                   (ints [30; 45; 60; 45; 30; 15]) (ints [15; 30; 45; 30; 30; 15])
                   (strs ["Low"; "Medium"; "High"; "High"; "Medium"; "Low"]%string)
                   _ _ _ _ _) _); reflexivity.
Defined.


